(** * E-Shop Central: cart, checkout and rating logic

    A shallow embedding of the reconciliation logic of the storefront
    (React/TypeScript over a hosted record store) and the properties its
    specification states about it.

    Source files embedded here:
    - [ProductCard] (add to cart, add to wishlist),
    - [pages/ProductDetail.tsx] (the same two handlers, review submission,
      the average rating),
    - [pages/Cart.tsx] (page load, quantity update, removal, cart
      persistence),
    - [pages/Wishlist.tsx] (page load, add to cart),
    - [Checkout] (page load, total price, order submission).

    Modelling conventions.
    - A JS [number] holding money (a price, a total) is a binary64
      floating-point number, [float], with the primitive IEEE 754 addition
      and multiplication; quantities, stock levels, ratings and loyalty
      points, which the code never makes fractional, are integers [Z]
      (exact up to 2^53). The mean of integer ratings is the rational
      quotient of two integers; the division is modelled with its
      non-finite results ([number]).
    - A JS string that the code trims is the list of its UTF-16 code
      units; the other strings (identifiers, names, messages) are [string].
    - The record store is an explicit state ([Store]); every request made to
      it is appended to a log, and a fault oracle decides which requests
      the store answers with an error, leaving its state untouched.
    - A handler is a computation in a state-and-exception monad [M] over the
      [World]; [try]/[catch]/[finally] are combinators of that monad.
    - React state is read when the handler starts (the closure of the
      render) and written through the setters. *)

From Stdlib Require Import QArith Qround.
From Stdlib Require Import PrimFloat FloatOps SpecFloat.
From stdpp Require Import gmap strings list fin_maps pretty.

#[local] Set Warnings "-inexact-float".

Local Open Scope Z_scope.

(** ** Numbers and strings of the platform *)

(** An integer as a JS number: the nearest binary64 value (the integer
    itself up to 2^53). *)
Definition of_Z (z : Z) : float := SF2Prim (binary_normalize prec emax z 0 false).

(** The rational a finite binary64 number stands for; [None] for NaN and
    the infinities. *)
Definition float_value (x : float) : option Q :=
  match Prim2SF x with
  | S754_zero _ => Some 0%Q
  | S754_finite s m e => Some (inject_Z (cond_Zopp s (Zpos m)) * 2 ^ e)%Q
  | S754_infinity _ | S754_nan => None
  end.

(** [Number.isFinite] *)
Definition Number_isFinite (x : float) : bool :=
  match float_value x with
  | Some _ => true
  | None => false
  end.

(** [Math.floor] of a finite number, as the integer it returns. For NaN and
    the infinities, which [Math.floor] returns as they are and which a
    total of finite prices reaches by overflow only, the model has no
    integer and answers 0: what is stated about the points earned is
    stated for finite totals. *)
Definition Math_floor (x : float) : Z :=
  match float_value x with
  | Some q => Qfloor q
  | None => 0
  end.

(** The UTF-16 code units of a JS string. *)
Abbreviation utf16 := (list N).

(** Code units of the ECMAScript productions WhiteSpace (TAB, VT, FF,
    ZWNBSP and the Unicode space separators) and LineTerminator (LF, CR,
    LS, PS), which [String.prototype.trim] strips. *)
Definition is_white_space (c : N) : bool :=
  ((c =? 0x0009) || (c =? 0x000B) || (c =? 0x000C) || (c =? 0xFEFF) ||
   (c =? 0x0020) || (c =? 0x00A0) || (c =? 0x1680) ||
   ((0x2000 <=? c) && (c <=? 0x200A)) ||
   (c =? 0x202F) || (c =? 0x205F) || (c =? 0x3000) ||
   (c =? 0x000A) || (c =? 0x000D) || (c =? 0x2028) || (c =? 0x2029))%N.

Fixpoint trimStart (s : utf16) : utf16 :=
  match s with
  | c :: s' => if is_white_space c then trimStart s' else s
  | [] => []
  end.

(** [String.prototype.trim] *)
Definition trim (s : utf16) : utf16 := rev (trimStart (rev (trimStart s))).

(** ** Data model *)

(** [interface CartItem] of Cart.tsx (the one of Checkout omits [image]). *)
Record CartItem := mkCartItem {
  id : string;
  name : string;
  price : float;
  image : option string;
  quantity : Z
}.

(** [interface Product] of ProductCard. *)
Record Product := mkProduct {
  product_id : string;
  product_name : string;
  product_price : float;
  product_image : option string;
  stock : Z;
  category : option string
}.

(** A row of [reviews]; only [rating] is read by the calculator. *)
Record Review := mkReview {
  review_product_id : string;
  review_user_id : string;
  rating : Z;
  comment : utf16
}.

(** A row of [wishlists] as the wishlist page selects it, with the product
    the row refers to; a row is identified by its user and its product. *)
Record WishlistItem := mkWishlistItem {
  wishlist_product_id : string;
  wishlist_products : option Product
}.

(** [{ ...item, quantity: q }] *)
Definition with_quantity (item : CartItem) (q : Z) : CartItem :=
  {| id := id item; name := name item; price := price item;
     image := image item; quantity := q |}.

(** ** The cart merger (handleAddToCart, lines "Add product to cart") *)

Fixpoint findIndex_from {A} (p : A → bool) (l : list A) (i : Z) : Z :=
  match l with
  | [] => -1
  | x :: l' => if p x then i else findIndex_from p l' (i + 1)
  end.

(** [Array.prototype.findIndex]: the first index whose element satisfies
    the predicate, [-1] when there is none. *)
Definition findIndex {A} (p : A → bool) (l : list A) : Z := findIndex_from p l 0.

(** The value of [updatedProducts] that handleAddToCart writes back, as a
    function of [existingProducts] and the [product] of the card. *)
Definition updatedProducts (existingProducts : list CartItem) (product : Product)
  : list CartItem :=
  let existingProductIndex :=
    findIndex (λ item, String.eqb (id item) (product_id product)) existingProducts in
  if 0 <=? existingProductIndex then
    (* updatedProducts = [...existingProducts];
       updatedProducts[existingProductIndex].quantity += 1 *)
    alter (λ item, with_quantity item (quantity item + 1))
          (Z.to_nat existingProductIndex) existingProducts
  else
    existingProducts ++
      [ {| id := product_id product; name := product_name product;
           price := product_price product; image := product_image product;
           quantity := 1 |} ].

(** ** Quantity adjustment and removal (Cart.tsx) *)

(** [updatedItems] of updateQuantity, computed once the guard has passed. *)
Definition updateQuantity_items (cartItems : list CartItem) (itemId : string)
    (newQuantity : Z) : list CartItem :=
  map (λ item, if String.eqb (id item) itemId
               then with_quantity item newQuantity else item) cartItems.

(** [updatedItems] of removeItem. *)
Definition removeItem_items (cartItems : list CartItem) (itemId : string)
  : list CartItem :=
  filter (λ item, id item ≠ itemId) cartItems.

(** ** Totals (Checkout and Cart: getTotalPrice) *)

(** [cartItems.reduce((total, item) => total + (item.price * item.quantity), 0)] *)
Definition getTotalPrice (cartItems : list CartItem) : float :=
  fold_left (λ total item, total + price item * of_Z (quantity item))%float
            cartItems 0%float.

(** ** The aggregate rating calculator *)

(** Result of a JS division of finite numbers. *)
Inductive number :=
| Num (q : Q)
| NaN
| Infinity (negative : bool).

(** [a / b] on finite operands: [0/0] is [NaN], [a/0] is a signed infinity. *)
Definition js_div (a b : Q) : number :=
  if Qeq_bool b 0 then
    if Qeq_bool a 0 then NaN else Infinity (negb (Qle_bool 0 a))
  else Num (a / b).

(** [reviews.reduce((sum, review) => sum + review.rating, 0)] *)
Definition sum_ratings (reviews : list Review) : Z :=
  fold_left (λ sum review, sum + rating review) reviews 0.

(** [reviews.length > 0 ? reviews.reduce(...) / reviews.length : 0] *)
Definition averageRating (reviews : list Review) : number :=
  if 0 <? Z.of_nat (length reviews)
  then js_div (inject_Z (sum_ratings reviews)) (inject_Z (Z.of_nat (length reviews)))
  else Num 0.

(** ** The record store and the world a handler runs in *)

(** The user object of the identity provider. *)
Record User := mkUser { user_id : string; email : string }.

(** The [error] member of a store response; handlers read only [code]. *)
Record PgError := mkPgError { code : string; message : string }.

Inductive Status := pending | processing | shipped | delivered | cancelled.

Record Order := mkOrder {
  order_user_id : string;
  order_products : list CartItem;
  total : float;
  status : Status
}.

Record Profile := mkProfile {
  profile_email : string;
  role : string;
  loyalty_points : Z
}.

Record InventoryRow := mkInventoryRow {
  inventory_stock : Z;
  last_updated : string
}.

(** The tables the handlers touch. [products] and [inventory] are keyed by
    product id, [profiles] by user id. [carts] holds one row per user (the
    handlers read it with [.single()]), keyed by the owner; the row's own
    [id], which handleAddToCart uses only to address the row it has just
    read, is identified with that key. The [products] column of a cart is
    JSON: [None] stands for a value that is not an array. [wishlists] is a
    set of (user, product) pairs: a second insert of a pair violates the
    table's unique key. *)
Record Store := mkStore {
  products : gmap string Product;
  inventory : gmap string InventoryRow;
  carts : gmap string (option (list CartItem));
  orders : list Order;
  profiles : gmap string Profile;
  wishlists : gset (string * string);
  reviews : list Review
}.

(** The calls a handler makes on the query client. *)
Inductive Request :=
| SelectCart (uid : string)
| InsertCart (uid : string) (items : list CartItem)
| UpdateCartById (cart : string) (items : list CartItem)
| UpdateCartByUser (uid : string) (items : list CartItem)
| UpsertCart (uid : string) (items : list CartItem)
| SelectWishlist (uid : string)
| InsertWishlist (uid pid : string)
| InsertReview (r : Review)
| InsertOrder (o : Order)
| SelectProfilePoints (uid : string)
| UpdateProfilePoints (uid : string) (points : Z)
| SelectProductStock (pid : string)
| UpdateProductStock (pid : string) (newStock : Z)
| UpdateInventory (pid : string) (newStock : Z) (stamp : string).

Definition is_write (r : Request) : bool :=
  match r with
  | SelectCart _ | SelectWishlist _ | SelectProfilePoints _ | SelectProductStock _ =>
      false
  | _ => true
  end.

(** What a handler shows or asks of the UI layer. *)
Inductive UiEvent :=
| Toast (title description : string) (destructive : bool)
| Navigate (path : string)
| ConsoleError (label : string)
| SetIsLoading (b : bool)
| SetIsProcessing (b : bool)
| SetIsSubmittingReview (b : bool)
| SetUser (user : User)
| SetShippingEmail (email : string)
| SetCartItems (items : list CartItem)
| SetWishlistItems (items : list WishlistItem)
| SetNewComment (s : utf16)
| SetNewRating (r : Z)
| Call (callback : string).

(** [session] is what [supabase.auth.getUser()] answers, [faults] the
    requests the store fails, [now] the reading of [new Date().toISOString()];
    [log] and [ui] grow at the end. *)
Record World := mkWorld {
  store : Store;
  session : option User;
  faults : Request → option PgError;
  now : string;
  log : list Request;
  ui : list UiEvent
}.

Definition no_faults : Request → option PgError := λ _, None.

Definition set_store (f : Store → Store) (w : World) : World :=
  {| store := f (store w); session := session w; faults := faults w;
     now := now w; log := log w; ui := ui w |}.

Definition add_log (r : Request) (w : World) : World :=
  {| store := store w; session := session w; faults := faults w;
     now := now w; log := log w ++ [r]; ui := ui w |}.

Definition add_ui (e : UiEvent) (w : World) : World :=
  {| store := store w; session := session w; faults := faults w;
     now := now w; log := log w; ui := ui w ++ [e] |}.

(** ** The handler monad: state, and exceptions for [throw] *)

Inductive Completion (A : Type) :=
| Normal (a : A)
| Thrown (e : PgError).
Arguments Normal {A} a.
Arguments Thrown {A} e.

Definition M (A : Type) : Type := World → Completion A * World.

Definition ret {A} (a : A) : M A := λ w, (Normal a, w).

Definition bind {A B} (m : M A) (k : A → M B) : M B :=
  λ w, match m w with
       | (Normal a, w') => k a w'
       | (Thrown e, w') => (Thrown e, w')
       end.

Definition throw {A} (e : PgError) : M A := λ w, (Thrown e, w).

(** [try { body } catch (error) { handler }] *)
Definition try_catch {A} (body : M A) (handler : PgError → M A) : M A :=
  λ w, match body w with
       | (Normal a, w') => (Normal a, w')
       | (Thrown e, w') => handler e w'
       end.

(** [try { body } finally { final }], with a [final] that does not throw. *)
Definition try_finally {A} (body : M A) (final : M unit) : M A :=
  λ w, match body w with
       | (c, w') => (c, snd (final w'))
       end.

(** The handlers are written with stdpp's monad notations
    [x ← m; k] and [m;; k]. *)
#[global] Instance M_ret : MRet M := @ret.
#[global] Instance M_bind : MBind M := λ A B k m, bind m k.

(** [if (error) throw error] *)
Definition throw_if (error : option PgError) : M unit :=
  match error with
  | Some e => throw e
  | None => ret tt
  end.

(** [for (const item of items) { body }] *)
Fixpoint for_of {A} (items : list A) (body : A → M unit) : M unit :=
  match items with
  | [] => ret tt
  | item :: rest => body item;; for_of rest body
  end.

Definition emit (e : UiEvent) : M unit := λ w, (Normal tt, add_ui e w).
Definition toast (title description : string) (destructive : bool) : M unit :=
  emit (Toast title description destructive).
Definition getUser : M (option User) := λ w, (Normal (session w), w).
Definition toISOString : M string := λ w, (Normal (now w), w).

(** ** Store requests *)

(** A request that writes: logged; failed by the oracle, or applied. *)
Definition write (r : Request) (apply : Store → Store) : M (option PgError) :=
  λ w, let w1 := add_log r w in
       match faults w r with
       | Some e => (Normal (Some e), w1)
       | None => (Normal None, set_store apply w1)
       end.

(** A request that reads: [data] is [null] when the store fails it or
    finds no row. *)
Definition read {A} (r : Request) (get : Store → option A) : M (option A) :=
  λ w, let w1 := add_log r w in
       match faults w r with
       | Some _ => (Normal None, w1)
       | None => (Normal (get (store w)), w1)
       end.

Definition duplicate_key : PgError :=
  {| code := "23505"; message := "duplicate key value violates unique constraint" |}.

(** A write on a table with a unique key: a clash is answered with the
    store's duplicate-key error and changes nothing. *)
Definition write_unique (r : Request) (clash : Store → bool) (apply : Store → Store)
  : M (option PgError) :=
  λ w, let w1 := add_log r w in
       match faults w r with
       | Some e => (Normal (Some e), w1)
       | None => if clash (store w) then (Normal (Some duplicate_key), w1)
                 else (Normal None, set_store apply w1)
       end.

Definition with_products (f : gmap string Product → gmap string Product) (s : Store) :=
  {| products := f (products s); inventory := inventory s; carts := carts s;
     orders := orders s; profiles := profiles s; wishlists := wishlists s;
     reviews := reviews s |}.
Definition with_inventory (f : gmap string InventoryRow → gmap string InventoryRow)
    (s : Store) :=
  {| products := products s; inventory := f (inventory s); carts := carts s;
     orders := orders s; profiles := profiles s; wishlists := wishlists s;
     reviews := reviews s |}.
Definition with_carts (f : gmap string (option (list CartItem)) →
                           gmap string (option (list CartItem))) (s : Store) :=
  {| products := products s; inventory := inventory s; carts := f (carts s);
     orders := orders s; profiles := profiles s; wishlists := wishlists s;
     reviews := reviews s |}.
Definition with_orders (f : list Order → list Order) (s : Store) :=
  {| products := products s; inventory := inventory s; carts := carts s;
     orders := f (orders s); profiles := profiles s; wishlists := wishlists s;
     reviews := reviews s |}.
Definition with_profiles (f : gmap string Profile → gmap string Profile) (s : Store) :=
  {| products := products s; inventory := inventory s; carts := carts s;
     orders := orders s; profiles := f (profiles s); wishlists := wishlists s;
     reviews := reviews s |}.
Definition with_wishlists (f : gset (string * string) → gset (string * string))
    (s : Store) :=
  {| products := products s; inventory := inventory s; carts := carts s;
     orders := orders s; profiles := profiles s; wishlists := f (wishlists s);
     reviews := reviews s |}.
Definition with_reviews (f : list Review → list Review) (s : Store) :=
  {| products := products s; inventory := inventory s; carts := carts s;
     orders := orders s; profiles := profiles s; wishlists := wishlists s;
     reviews := f (reviews s) |}.

(** [from('carts').select('*').eq('user_id', uid).single()] *)
Definition select_cart (uid : string) : M (option (option (list CartItem))) :=
  read (SelectCart uid) (λ s, carts s !! uid).

(** [from('carts').insert({ user_id, products }).select().single()]:
    the response carries either the error or the new row. *)
Definition insert_cart (uid : string) (items : list CartItem)
  : M (PgError + option (list CartItem)) :=
  error ← write_unique (InsertCart uid items)
            (λ s, bool_decide (is_Some (carts s !! uid)))
            (with_carts (insert uid (Some items)));
  mret (match error with
        | Some createError => inl createError
        | None => inr (Some items)
        end).

(** [from('carts').update({ products }).eq('id', cart.id)] *)
Definition update_cart_by_id (cart : string) (items : list CartItem) : M (option PgError) :=
  write (UpdateCartById cart items) (with_carts (alter (λ _, Some items) cart)).

(** [from('carts').update({ products }).eq('user_id', uid)] *)
Definition update_cart_by_user (uid : string) (items : list CartItem) : M (option PgError) :=
  write (UpdateCartByUser uid items) (with_carts (alter (λ _, Some items) uid)).

(** [from('carts').upsert({ user_id, products })] *)
Definition upsert_cart (uid : string) (items : list CartItem) : M (option PgError) :=
  write (UpsertCart uid items) (with_carts (insert uid (Some items))).

(** [from('wishlists').select(`id, product_id, products (...)`).eq('user_id', uid)]:
    the response carries either the error or the user's rows, each with
    the product it refers to. *)
Definition select_wishlist (uid : string) : M (PgError + list WishlistItem) :=
  λ w, let w1 := add_log (SelectWishlist uid) w in
       match faults w (SelectWishlist uid) with
       | Some e => (Normal (inl e), w1)
       | None =>
           (Normal (inr ((λ row : string * string,
                            {| wishlist_product_id := row.2;
                               wishlist_products := products (store w) !! row.2 |}) <$>
                         filter (λ row : string * string, row.1 = uid)
                                (elements (wishlists (store w))))), w1)
       end.

(** [from('wishlists').insert({ user_id, product_id })] *)
Definition insert_wishlist (uid pid : string) : M (option PgError) :=
  write_unique (InsertWishlist uid pid)
    (λ s, bool_decide ((uid, pid) ∈ wishlists s))
    (with_wishlists (λ ws, ws ∪ {[ (uid, pid) ]})).

(** [from('reviews').insert({ product_id, user_id, rating, comment })] *)
Definition insert_review (r : Review) : M (option PgError) :=
  write (InsertReview r) (with_reviews (λ rs, rs ++ [r])).

(** [from('orders').insert({ user_id, products, total, status })] *)
Definition insert_order (o : Order) : M (option PgError) :=
  write (InsertOrder o) (with_orders (λ os, os ++ [o])).

(** [from('profiles').select('loyalty_points').eq('id', uid).single()] *)
Definition select_profile_points (uid : string) : M (option Z) :=
  read (SelectProfilePoints uid) (λ s, loyalty_points <$> profiles s !! uid).

Definition with_points (points : Z) (p : Profile) : Profile :=
  {| profile_email := profile_email p; role := role p; loyalty_points := points |}.

(** [from('profiles').update({ loyalty_points }).eq('id', uid)] *)
Definition update_profile_points (uid : string) (points : Z) : M (option PgError) :=
  write (UpdateProfilePoints uid points) (with_profiles (alter (with_points points) uid)).

(** [from('products').select('stock').eq('id', pid).single()] *)
Definition select_product_stock (pid : string) : M (option Z) :=
  read (SelectProductStock pid) (λ s, stock <$> products s !! pid).

Definition with_stock (newStock : Z) (p : Product) : Product :=
  {| product_id := product_id p; product_name := product_name p;
     product_price := product_price p; product_image := product_image p;
     stock := newStock; category := category p |}.

(** [from('products').update({ stock }).eq('id', pid)] *)
Definition update_product_stock (pid : string) (newStock : Z) : M (option PgError) :=
  write (UpdateProductStock pid newStock) (with_products (alter (with_stock newStock) pid)).

(** [from('inventory').update({ stock, last_updated }).eq('product_id', pid)] *)
Definition update_inventory (pid : string) (newStock : Z) (stamp : string)
  : M (option PgError) :=
  write (UpdateInventory pid newStock stamp)
        (with_inventory (alter (λ _, {| inventory_stock := newStock;
                                        last_updated := stamp |}) pid)).

(** ** Handlers *)

(** The part of handleAddToCart from "Check if cart exists" to
    [if (updateError) throw updateError]; its text is the same in
    ProductCard, in ProductDetail and in the addToCart of Wishlist. *)
Definition addProductToCart (user : User) (product : Product) : M unit :=
  cart ← select_cart (user_id user);
  cart ← match cart with
         | Some cart => mret cart
         | None =>
             r ← insert_cart (user_id user) [];
             match r with
             | inl createError => throw createError
             | inr newCart => mret newCart
             end
         end;
  (* Array.isArray(cart.products) ? cart.products : [] *)
  let existingProducts := default [] cart in
  updateError ← update_cart_by_id (user_id user) (updatedProducts existingProducts product);
  throw_if updateError.

(** [if (error && error.code !== '23505') throw error] *)
Definition throw_unless_duplicate (error : option PgError) : M unit :=
  match error with
  | Some e => if negb (String.eqb (code e) "23505") then throw e else mret tt
  | None => mret tt
  end.

Module ProductCard.

Definition handleAddToCart (product : Product) : M unit :=
  emit (SetIsLoading true);;
  try_finally
    (try_catch
       (user ← getUser;
        match user with
        | None =>
            toast "Authentication required" "Please sign in to add items to cart" true
        | Some user =>
            addProductToCart user product;;
            toast "Added to cart"
                  (product_name product +:+ " has been added to your cart") false;;
            emit (Call "onAddToCart")
        end)
       (λ error,
          emit (ConsoleError "Error adding to cart:");;
          toast "Error" "Failed to add item to cart" true))
    (emit (SetIsLoading false)).

Definition handleAddToWishlist (product : Product) : M unit :=
  try_catch
    (user ← getUser;
     match user with
     | None =>
         toast "Authentication required" "Please sign in to add items to wishlist" true
     | Some user =>
         error ← insert_wishlist (user_id user) (product_id product);
         throw_unless_duplicate error;;
         toast "Added to wishlist"
               (product_name product +:+ " has been added to your wishlist") false;;
         emit (Call "onAddToWishlist")
     end)
    (λ error,
       emit (ConsoleError "Error adding to wishlist:");;
       toast "Error" "Failed to add item to wishlist" true).

End ProductCard.

Module ProductDetail.

Definition handleAddToCart (product : Product) : M unit :=
  try_catch
    (user ← getUser;
     match user with
     | None =>
         toast "Authentication required" "Please sign in to add items to cart" true
     | Some user =>
         addProductToCart user product;;
         toast "Added to cart"
               (product_name product +:+ " has been added to your cart") false
     end)
    (λ error,
       emit (ConsoleError "Error adding to cart:");;
       toast "Error" "Failed to add item to cart" true).

Definition handleAddToWishlist (product : Product) : M unit :=
  try_catch
    (user ← getUser;
     match user with
     | None =>
         toast "Authentication required" "Please sign in to add items to wishlist" true
     | Some user =>
         error ← insert_wishlist (user_id user) (product_id product);
         throw_unless_duplicate error;;
         toast "Added to wishlist"
               (product_name product +:+ " has been added to your wishlist") false
     end)
    (λ error,
       emit (ConsoleError "Error adding to wishlist:");;
       toast "Error" "Failed to add item to wishlist" true).

(** [id] is the route parameter; [fetchReviews()] is started and not
    awaited. *)
Definition handleSubmitReview (id : string) (newRating : Z) (newComment : utf16)
  : M unit :=
  emit (SetIsSubmittingReview true);;
  try_finally
    (try_catch
       (user ← getUser;
        match user with
        | None =>
            toast "Authentication required" "Please sign in to submit a review" true
        | Some user =>
            error ← insert_review {| review_product_id := id;
                                     review_user_id := user_id user;
                                     rating := newRating;
                                     comment := trim newComment |};
            throw_if error;;
            toast "Review submitted" "Thank you for your review!" false;;
            emit (SetNewComment []);;
            emit (SetNewRating 5);;
            emit (Call "fetchReviews")
        end)
       (λ error,
          emit (ConsoleError "Error submitting review:");;
          toast "Error" "Failed to submit review" true))
    (emit (SetIsSubmittingReview false)).

End ProductDetail.

Module Cart.

(** The page's load. [select('products')] reads the one column the cart
    row has here. *)
Definition fetchCart : M unit :=
  try_finally
    (try_catch
       (user ← getUser;
        match user with
        | None => emit (Navigate "/auth")
        | Some user =>
            emit (SetUser user);;
            cart ← select_cart (user_id user);
            (* cart?.products && Array.isArray(cart.products) *)
            match cart with
            | Some (Some products) => emit (SetCartItems products)
            | _ => mret tt
            end
        end)
       (λ error, emit (ConsoleError "Error fetching cart:")))
    (emit (SetIsLoading false)).

Definition updateCartInDatabase (user : option User) (items : list CartItem) : M unit :=
  match user with
  | None => mret tt
  | Some user =>
      try_catch
        (error ← upsert_cart (user_id user) items;
         throw_if error)
        (λ error,
           emit (ConsoleError "Error updating cart:");;
           toast "Error" "Failed to update cart" true)
  end.

(** [user] and [cartItems] are the component's state. *)
Definition updateQuantity (user : option User) (cartItems : list CartItem)
    (itemId : string) (newQuantity : Z) : M unit :=
  if newQuantity <? 1 then mret tt
  else
    let updatedItems := updateQuantity_items cartItems itemId newQuantity in
    emit (SetCartItems updatedItems);;
    updateCartInDatabase user updatedItems.

Definition removeItem (user : option User) (cartItems : list CartItem)
    (itemId : string) : M unit :=
  let updatedItems := removeItem_items cartItems itemId in
  emit (SetCartItems updatedItems);;
  updateCartInDatabase user updatedItems;;
  toast "Item removed" "Item has been removed from your cart" false.

End Cart.

Module Wishlist.

(** The page's load. *)
Definition fetchWishlist : M unit :=
  try_finally
    (try_catch
       (user ← getUser;
        match user with
        | None => emit (Navigate "/auth")
        | Some user =>
            emit (SetUser user);;
            response ← select_wishlist (user_id user);
            match response with
            | inl error => throw error
            | inr data => emit (SetWishlistItems data)
            end
        end)
       (λ error, emit (ConsoleError "Error fetching wishlist:")))
    (emit (SetIsLoading false)).

(** [user] is the component's state. *)
Definition addToCart (user : option User) (product : Product) : M unit :=
  match user with
  | None => mret tt
  | Some user =>
      try_catch
        (addProductToCart user product;;
         toast "Added to cart"
               (product_name product +:+ " has been added to your cart") false)
        (λ error,
           emit (ConsoleError "Error adding to cart:");;
           toast "Error" "Failed to add item to cart" true)
  end.

End Wishlist.

Module Checkout.

(** The page's load. *)
Definition fetchCartAndUser : M unit :=
  try_finally
    (try_catch
       (user ← getUser;
        match user with
        | None => emit (Navigate "/auth")
        | Some user =>
            emit (SetUser user);;
            cart ← select_cart (user_id user);
            (* cart?.products && Array.isArray(cart.products) *)
            match cart with
            | Some (Some products) => emit (SetCartItems products)
            | _ => mret tt
            end;;
            (* Pre-fill email: user.email || '' *)
            emit (SetShippingEmail (email user))
        end)
       (λ error, emit (ConsoleError "Error fetching data:")))
    (emit (SetIsLoading false)).

(** The body of the stock loop for one [item]. *)
Definition updateStock (item : CartItem) : M unit :=
  product ← select_product_stock (id item);
  match product with
  | Some product_stock =>
      let newStock := Z.max 0 (product_stock - quantity item) in
      _ ← update_product_stock (id item) newStock;
      stamp ← toISOString;
      _ ← update_inventory (id item) newStock stamp;
      mret tt
  | None => mret tt
  end.

(** [user] and [cartItems] are the component's state. *)
Definition handleSubmit (user : option User) (cartItems : list CartItem) : M unit :=
  match user with
  | None => mret tt
  | Some user =>
    if (length cartItems =? 0)%nat then mret tt
    else
      emit (SetIsProcessing true);;
      try_finally
        (try_catch
           (let total := getTotalPrice cartItems in
            let loyaltyPointsEarned := Math_floor total in
            (* Create order *)
            orderError ← insert_order {| order_user_id := user_id user;
                                         order_products := cartItems;
                                         total := total;
                                         status := pending |};
            throw_if orderError;;
            (* Update loyalty points *)
            profile ← select_profile_points (user_id user);
            let currentPoints := default 0 profile in
            profileError ← update_profile_points (user_id user)
                                                 (currentPoints + loyaltyPointsEarned);
            throw_if profileError;;
            (* Update product stock *)
            for_of cartItems updateStock;;
            (* Clear cart *)
            _ ← update_cart_by_user (user_id user) [];
            toast "Order placed successfully!"
                  ("You earned " +:+ pretty loyaltyPointsEarned +:+ " loyalty points!")
                  false;;
            emit (Navigate "/orders"))
           (λ error,
              emit (ConsoleError "Error processing order:");;
              toast "Error" "Failed to process your order. Please try again." true))
        (emit (SetIsProcessing false))
  end.

End Checkout.

(** ** Vocabulary of the statements *)

(** The handler [h], run in [w], completes normally, leaves the store as
    [s'] and adds exactly [events] to what the UI has been told. *)
Definition reports (h : M unit) (w : World) (s' : Store) (events : list UiEvent) : Prop :=
  ∃ w', h w = (Normal tt, w') ∧ store w' = s' ∧ ui w' = ui w ++ events.

(** The handler [h], run in [w], completes normally without a request to
    the store, the store being as before, and adds exactly [events] to what
    the UI has been told. *)
Definition aborts (h : M unit) (w : World) (events : list UiEvent) : Prop :=
  ∃ w', h w = (Normal tt, w') ∧ store w' = store w ∧ log w' = log w ∧
        ui w' = ui w ++ events.

(** The sign-in prompt of a handler. *)
Definition sign_in_prompt (what : string) : UiEvent :=
  Toast "Authentication required" ("Please sign in to " +:+ what) true.

(** The requests of the stock loop over a cart, given the ids of the
    product rows that exist: every item is looked up; an item whose row
    exists is followed by the update of that row and of its inventory row
    with one and the same non-negative stock; an item without a row is
    followed by nothing. *)
Inductive stock_requests (present : gset string) : list CartItem → list Request → Prop :=
| stock_requests_nil : stock_requests present [] []
| stock_requests_skip item rest l :
    id item ∉ present →
    stock_requests present rest l →
    stock_requests present (item :: rest) (SelectProductStock (id item) :: l)
| stock_requests_update item rest l newStock stamp :
    id item ∈ present →
    0 ≤ newStock →
    stock_requests present rest l →
    stock_requests present (item :: rest)
      (SelectProductStock (id item) :: UpdateProductStock (id item) newStock ::
       UpdateInventory (id item) newStock stamp :: l).

(** What the stock loop leaves alone, whatever the store fails. *)
Definition loop_frame (w w' : World) : Prop :=
  session w' = session w ∧ faults w' = faults w ∧ now w' = now w ∧
  ui w' = ui w ∧
  orders (store w') = orders (store w) ∧ carts (store w') = carts (store w) ∧
  profiles (store w') = profiles (store w) ∧
  wishlists (store w') = wishlists (store w) ∧
  reviews (store w') = reviews (store w).

(** The order that handleSubmit inserts. *)
Definition placed_order (user : User) (cartItems : list CartItem) : Order :=
  {| order_user_id := user_id user; order_products := cartItems;
     total := getTotalPrice cartItems; status := pending |}.

(** The points handleSubmit writes to the profile. *)
Definition new_points (user : User) (cartItems : list CartItem) (w : World) : Z :=
  default 0 (loyalty_points <$> profiles (store w) !! user_id user) +
  Math_floor (getTotalPrice cartItems).

(** The world of a checkout whose requests all succeed, when the stock loop
    starts. *)
Definition checkout_begin (user : User) (cartItems : list CartItem) (w : World) : World :=
  set_store (with_profiles (alter (with_points (new_points user cartItems w))
                                  (user_id user)))
    (add_log (UpdateProfilePoints (user_id user) (new_points user cartItems w))
       (add_log (SelectProfilePoints (user_id user))
          (set_store (with_orders (λ os, os ++ [placed_order user cartItems]))
             (add_log (InsertOrder (placed_order user cartItems))
                (add_ui (SetIsProcessing true) w))))).

(** The events of a successful checkout after [SetIsProcessing true]. *)
Definition success_events (cartItems : list CartItem) : list UiEvent :=
  [ Toast "Order placed successfully!"
          ("You earned " +:+ pretty (Math_floor (getTotalPrice cartItems)) +:+
           " loyalty points!") false;
    Navigate "/orders";
    SetIsProcessing false ].

(** The world of that checkout when the handler returns, from the world
    [w3] the stock loop has left. *)
Definition checkout_end (user : User) (cartItems : list CartItem) (w3 : World) : World :=
  {| store := with_carts (alter (λ _, Some []) (user_id user)) (store w3);
     session := session w3; faults := faults w3; now := now w3;
     log := log w3 ++ [UpdateCartByUser (user_id user) []];
     ui := ui w3 ++ success_events cartItems |}.

(** An oracle that fails exactly the requests satisfying [hit]. *)
Definition fail_when (hit : Request → bool) : Request → option PgError :=
  λ r, if hit r then Some {| code := "08006"; message := "connection failure" |}
       else None.

Definition is_profile_update (r : Request) : bool :=
  match r with UpdateProfilePoints _ _ => true | _ => false end.

(** ** Sample data *)

Definition apple : Product :=
  {| product_id := "A"; product_name := "Apple"; product_price := 10%float;
     product_image := None; stock := 5; category := None |}.

Definition apple_item (q : Z) : CartItem :=
  {| id := "A"; name := "Apple"; price := 10%float; image := None; quantity := q |}.

Definition pear_item : CartItem :=
  {| id := "P"; name := "Pear"; price := 3%float; image := None; quantity := 1 |}.


Definition ghost_item : CartItem :=
  {| id := "Z"; name := "Withdrawn"; price := 7%float; image := None; quantity := 2 |}.

Definition review_of (r : Z) : Review :=
  {| review_product_id := "A"; review_user_id := "u"; rating := r; comment := [] |}.

Definition alice : User := {| user_id := "u"; email := "alice@example.org" |}.

(** A store with the product [apple] at the given stock, its inventory row,
    and the profile of [alice] with no points yet. *)
Definition apple_store (apple_stock : Z) : Store :=
  {| products := {[ "A" := with_stock apple_stock apple ]};
     inventory := {[ "A" := {| inventory_stock := apple_stock; last_updated := "t0" |} ]};
     carts := ∅; orders := []; wishlists := ∅; reviews := [];
     profiles := {[ "u" := {| profile_email := "alice@example.org";
                              role := "customer"; loyalty_points := 0 |} ]} |}.

Definition world_of (s : Store) (who : option User) (f : Request → option PgError)
  : World :=
  {| store := s; session := who; faults := f; now := "t1"; log := []; ui := [] |}.

Definition signed_in (apple_stock : Z) (f : Request → option PgError) : World :=
  world_of (apple_store apple_stock) (Some alice) f.

(** ** Further functions of the sources *)

Module CartSummary.

(** Cart.tsx, getTotalItems:
    [cartItems.reduce((total, item) => total + item.quantity, 0)] *)
Definition getTotalItems (cartItems : list CartItem) : Z :=
  fold_left (λ total item, total + quantity item) cartItems 0.

End CartSummary.

Module Vendor.

(** The rows are those of [products]; the page's own [interface Product]
    names the same columns. *)
Definition getTotalProducts (products : list Product) : Z :=
  Z.of_nat (length products).

(** [products.filter(product => product.stock < 10).length] *)
Definition getLowStockCount (products : list Product) : Z :=
  Z.of_nat (length (filter (λ product, stock product < 10) products)).

(** The new value of the [products] state in updateStock:
    [prev.map(product =>
       product.id === productId ? { ...product, stock: newStock } : product)] *)
Definition updateStock_products (prev : list Product) (productId : string)
    (newStock : Z) : list Product :=
  map (λ product, if String.eqb (product_id product) productId
                  then with_stock newStock product else product) prev.

End Vendor.

Module Catalog.

(** The elements of [new Set(values)] in iteration order: a value is
    appended when it is met for the first time. *)
Fixpoint set_add_all (seen values : list string) : list string :=
  match values with
  | [] => seen
  | value :: rest =>
      set_add_all (if bool_decide (value ∈ seen) then seen else seen ++ [value]) rest
  end.

(** fetchCategories of the products page and of the home page:
    [[...new Set(data?.map(item => item.category) || [])]], where [data] are
    the rows with a non-null category; [None] is a [data] of [null]. *)
Definition uniqueCategories (data : option (list string)) : list string :=
  set_add_all [] (default [] data).

End Catalog.

Module Stars.

(** A rendered [<Star>]: whether it carries the filled class, and the
    rating its [onClick] passes to [onRate], if it has one. *)
Record Star := mkStar { filled : bool; onClick : option Z }.

(** ProductCard, renderStars: the classes of
    [Array.from({ length: 5 }, (_, i) => ... i < Math.floor(rating) ...)]. *)
Definition renderStars_card (rating : Q) : list bool :=
  map (λ i : Z, i <? Qfloor rating) (seqZ 0 5).

(** ProductDetail, renderStars: the star at index [i] is filled when
    [i < rating]; an interactive star calls [onRate(i + 1)]. *)
Definition renderStars (rating : Q) (interactive : bool) : list Star :=
  map (λ i : Z, {| filled := negb (Qle_bool rating (inject_Z i));
                   onClick := if interactive then Some (i + 1) else None |})
      (seqZ 0 5).

End Stars.

(** ** Vocabulary of the further statements *)

(** The world in which the stock loop of a checkout starts when the order
    insertion and the points update are accepted, [read] being what the
    points read has answered. *)
Definition loop_start (user : User) (cartItems : list CartItem) (read : option Z)
    (w : World) : World :=
  set_store (with_profiles
               (alter (with_points (default 0 read + Math_floor (getTotalPrice cartItems)))
                      (user_id user)))
    (add_log (UpdateProfilePoints (user_id user)
                (default 0 read + Math_floor (getTotalPrice cartItems)))
       (add_log (SelectProfilePoints (user_id user))
          (set_store (with_orders (λ os, os ++ [placed_order user cartItems]))
             (add_log (InsertOrder (placed_order user cartItems))
                (add_ui (SetIsProcessing true) w))))).

(** What the points read of a checkout answers in [w]. *)
Definition points_read (user : User) (w : World) : option Z :=
  match faults w (SelectProfilePoints (user_id user)) with
  | Some _ => None
  | None => loyalty_points <$> profiles (store w) !! user_id user
  end.

(** The world in which that checkout returns, from the world [w3] the stock
    loop has left. *)
Definition loop_finish (user : User) (cartItems : list CartItem) (w3 : World) : World :=
  {| store := match faults w3 (UpdateCartByUser (user_id user) []) with
              | Some _ => store w3
              | None => with_carts (alter (λ _, Some []) (user_id user)) (store w3)
              end;
     session := session w3; faults := faults w3; now := now w3;
     log := log w3 ++ [UpdateCartByUser (user_id user) []];
     ui := ui w3 ++ success_events cartItems |}.

(** The world in which a checkout returns when the store rejects the
    insertion of the order. *)
Definition order_rejected (user : User) (cartItems : list CartItem) (w : World) : World :=
  {| store := store w; session := session w; faults := faults w; now := now w;
     log := log w ++ [InsertOrder (placed_order user cartItems)];
     ui := ui w ++ SetIsProcessing true ::
             [ ConsoleError "Error processing order:";
               Toast "Error" "Failed to process your order. Please try again." true ] ++
             [SetIsProcessing false] |}.

(** The world in which it returns when the store accepts the order and
    rejects the update of the points. *)
Definition points_rejected (user : User) (cartItems : list CartItem) (w : World) : World :=
  {| store := with_orders (λ os, os ++ [placed_order user cartItems]) (store w);
     session := session w; faults := faults w; now := now w;
     log := log w ++
       [ InsertOrder (placed_order user cartItems);
         SelectProfilePoints (user_id user);
         UpdateProfilePoints (user_id user)
           (default 0 (points_read user w) + Math_floor (getTotalPrice cartItems)) ];
     ui := ui w ++ SetIsProcessing true ::
             [ ConsoleError "Error processing order:";
               Toast "Error" "Failed to process your order. Please try again." true ] ++
             [SetIsProcessing false] |}.

(** The stock of a product after the stock loop has run over the items, on
    a store that answers: each line of the product clamps in turn. *)
Definition stock_after (pid : string) (items : list CartItem) (stock0 : Z) : Z :=
  fold_left (λ s item, if String.eqb (id item) pid
                       then Z.max 0 (s - quantity item) else s) items stock0.

(** The requests of the stock loop, and a store that answers all of them. *)
Definition is_stock_request (r : Request) : bool :=
  match r with
  | SelectProductStock _ | UpdateProductStock _ _ | UpdateInventory _ _ _ => true
  | _ => false
  end.

Definition stock_answered (w : World) : Prop :=
  ∀ r, is_stock_request r = true → faults w r = None.

(** The world once the identity provider has lost the session: the pages
    keep the state they have set. *)
Definition signed_out (w : World) : World :=
  {| store := store w; session := None; faults := faults w; now := now w;
     log := log w; ui := ui w |}.

(** The events of a handler's catch block. *)
Definition catch_events (label description : string) : list UiEvent :=
  [ ConsoleError label; Toast "Error" description true ].

(** ** Further sample data *)

Definition pear : Product :=
  {| product_id := "P"; product_name := "Pear"; product_price := 3%float;
     product_image := None; stock := 12; category := Some "fruit" |}.

Definition is_points_read (r : Request) : bool :=
  match r with SelectProfilePoints _ => true | _ => false end.

Definition is_cart_clear (r : Request) : bool :=
  match r with UpdateCartByUser _ _ => true | _ => false end.

Definition is_product_update (r : Request) : bool :=
  match r with UpdateProductStock _ _ => true | _ => false end.

Definition is_cart_update (r : Request) : bool :=
  match r with UpdateCartById _ _ => true | _ => false end.

(** [apple_store] with 70 points on the profile of [alice] and the given
    items in her cart. *)
Definition loyal_store (apple_stock : Z) (cart : list CartItem) : Store :=
  with_carts (insert "u" (Some cart))
    (with_profiles (alter (with_points 70) "u") (apple_store apple_stock)).

(** [apple_store] without any profile. *)
Definition anonymous_store (apple_stock : Z) : Store :=
  with_profiles (λ _, ∅) (apple_store apple_stock).

(** The code units of a string of ASCII characters. *)
Definition code_units (s : string) : utf16 :=
  map Ascii.N_of_ascii (String.list_ascii_of_string s).

(** "fine" between a no-break space, a space, an ideographic space and a
    line feed. *)
Definition padded_comment : utf16 :=
  [0x00A0; 0x0020]%N ++ code_units "fine" ++ [0x3000; 0x000A]%N.

(** A line of 100 pieces priced 4.35. *)
Definition bolt_item : CartItem :=
  {| id := "B"; name := "Bolt"; price := 4.35%float; image := None; quantity := 100 |}.

(** The component state [user] ([useState(null)]) and [cartItems]
    ([useState([])]) after the setter calls among [events]. *)
Definition user_of (events : list UiEvent) : option User :=
  fold_left (λ user e, match e with SetUser u => Some u | _ => user end) events None.

Definition cartItems_of (events : list UiEvent) : list CartItem :=
  fold_left (λ items e, match e with SetCartItems l => l | _ => items end) events [].

(** A page is mounted and has loaded; then a handler of the page is
    invoked, with the state the load has left. *)
Definition after_load (load : M unit) (handler : option User → list CartItem → M unit)
  : M unit :=
  λ w, match load w with
       | (Normal _, w1) =>
           let events := drop (length (ui w)) (ui w1) in
           handler (user_of events) (cartItems_of events) w1
       | (Thrown e, w1) => (Thrown e, w1)
       end.

(** The world after a page load that found no user. *)
Definition redirected (w : World) : World :=
  {| store := store w; session := session w; faults := faults w; now := now w;
     log := log w; ui := ui w ++ [Navigate "/auth"; SetIsLoading false] |}.

(** * Properties *)

(** Unfolds the monad and the store requests down to worlds. *)
Ltac run_handler :=
  unfold select_product_stock, select_profile_points, select_cart,
    update_product_stock, update_inventory, update_profile_points,
    update_cart_by_user, update_cart_by_id, upsert_cart, insert_order,
    insert_review, insert_wishlist, insert_cart, throw_unless_duplicate,
    throw_if, toast, emit, getUser, toISOString, try_finally, try_catch,
    write_unique, write, read, throw,
    mbind, M_bind, bind, mret, M_ret, ret in *.

(** ** Cart merger *)

Section FindIndex.
Context {A : Type} (p : A → bool).

(** [findIndex_from] answers [-1], with no element satisfying [p], or the
    offset of the first element that does. *)
Lemma findIndex_from_spec (l : list A) (i : Z) :
  0 ≤ i →
  (Forall (λ x, p x = false) l ∧ findIndex_from p l i = -1) ∨
  (∃ l1 x l2, l = l1 ++ x :: l2 ∧ Forall (λ y, p y = false) l1 ∧ p x = true ∧
              findIndex_from p l i = i + Z.of_nat (length l1)).
Proof.
  revert i. induction l as [|a l IH]; intros i Hi; simpl.
  - left. split; [constructor | reflexivity].
  - destruct (p a) eqn:Hpa.
    + right. exists [], a, l. simpl. repeat split; auto. lia.
    + destruct (IH (i + 1)) as [[Hall Hres] | (l1 & x & l2 & -> & Hall & Hx & Hres)];
        [lia | |].
      * left. split; [constructor; assumption | exact Hres].
      * right. exists (a :: l1), x, l2. simpl. repeat split; auto.
        rewrite Hres. lia.
Qed.

Lemma findIndex_spec (l : list A) :
  (Forall (λ x, p x = false) l ∧ findIndex p l = -1) ∨
  (∃ l1 x l2, l = l1 ++ x :: l2 ∧ Forall (λ y, p y = false) l1 ∧ p x = true ∧
              findIndex p l = Z.of_nat (length l1)).
Proof.
  unfold findIndex. destruct (findIndex_from_spec l 0) as [H | H]; [lia | auto |].
  right. destruct H as (l1 & x & l2 & ? & ? & ? & ->). exists l1, x, l2. auto.
Qed.
End FindIndex.

(** C3. When the list holds an item with the product's id, the merger
    returns the list with the first such item's quantity incremented by 1
    and every other entry, and the order, as they were; when it holds none,
    it returns the list with the item [{id, name, price, image, quantity: 1}]
    appended at the end. *)
Theorem updatedProducts_merge (items : list CartItem) (product : Product) :
  ((∃ item, item ∈ items ∧ id item = product_id product) →
   ∃ l1 item l2,
     items = l1 ++ item :: l2 ∧
     id item = product_id product ∧
     (∀ other, other ∈ l1 → id other ≠ product_id product) ∧
     updatedProducts items product =
       l1 ++ {| id := id item; name := name item; price := price item;
                image := image item; quantity := quantity item + 1 |} :: l2) ∧
  ((∀ item, item ∈ items → id item ≠ product_id product) →
   updatedProducts items product =
     items ++ [ {| id := product_id product; name := product_name product;
                   price := product_price product; image := product_image product;
                   quantity := 1 |} ]).
Proof.
  unfold updatedProducts.
  destruct (findIndex_spec (λ item, String.eqb (id item) (product_id product)) items)
    as [[Hall Hres] | (l1 & x & l2 & Hsplit & Hall & Hx & Hres)]; rewrite Hres.
  - split.
    + intros (item & Hin & Hid). rewrite Forall_forall in Hall.
      specialize (Hall item Hin). simpl in Hall.
      apply String.eqb_neq in Hall. contradiction.
    + intros _. reflexivity.
  - replace (0 <=? Z.of_nat (length l1)) with true by (symmetry; apply Z.leb_le; lia).
    rewrite Nat2Z.id. apply String.eqb_eq in Hx. split.
    + intros _. exists l1, x, l2. repeat split; auto.
      * intros other Hin. rewrite Forall_forall in Hall.
        specialize (Hall other Hin). simpl in Hall. by apply String.eqb_neq.
      * subst items. rewrite <- (Nat.add_0_r (length l1)).
        by rewrite alter_app_r.
    + intros Hnone. exfalso. apply (Hnone x); [| exact Hx].
      subst items. apply elem_of_app. right. left.
  Qed.

Lemma updatedProducts_merge_witness :
  updatedProducts [pear_item] apple = [pear_item; apple_item 1] ∧
  ∃ l1 item l2,
    [pear_item; apple_item 1] = l1 ++ item :: l2 ∧
    updatedProducts [pear_item; apple_item 1] apple =
      l1 ++ {| id := id item; name := name item; price := price item;
               image := image item; quantity := quantity item + 1 |} :: l2.
Proof.
  split.
  - apply (proj2 (updatedProducts_merge [pear_item] apple)).
    intros item Hin. apply list_elem_of_singleton in Hin. subst item. discriminate.
  - destruct (proj1 (updatedProducts_merge [pear_item; apple_item 1] apple))
      as (l1 & item & l2 & H1 & _ & _ & H2).
    + exists (apple_item 1). split; [| reflexivity]. right. left.
    + exists l1, item, l2. split; assumption.
Defined.

(** Merging the same product twice into an empty cart gives one entry of
    quantity 2. *)
Example merge_twice :
  updatedProducts (updatedProducts [] apple) apple = [apple_item 2].
Proof. reflexivity. Qed.

(** What handleAddToCart stores, on a store that answers: the merge of the
    product into the cart it has read, or into the empty cart it has just
    created. *)
Lemma addProductToCart_stores_merge (user : User) (product : Product) (w : World) :
  faults w = no_faults →
  ∃ w',
    addProductToCart user product w = (Normal tt, w') ∧
    ui w' = ui w ∧
    carts (store w') !! user_id user =
      Some (Some (updatedProducts
                    (match carts (store w) !! user_id user with
                     | Some (Some existingProducts) => existingProducts
                     | _ => []
                     end) product)).
Proof.
  intros Hf. unfold addProductToCart. run_handler. simpl.
  rewrite Hf. unfold no_faults at 1.
  destruct (carts (store w) !! user_id user) as [cart|] eqn:Hcart; simpl.
  - rewrite Hf. unfold no_faults. simpl.
    eexists. split; [reflexivity |]. split; [reflexivity |]. simpl.
    rewrite lookup_alter_eq, Hcart. by destruct cart.
  - repeat (rewrite Hf; unfold no_faults; simpl).
    rewrite Hcart. simpl. rewrite Hf. unfold no_faults. simpl.
    eexists. split; [reflexivity |]. split; [reflexivity |]. simpl.
    by rewrite lookup_alter_eq, lookup_insert_eq.
Qed.

(** ** Aggregate rating *)

Lemma sum_ratings_from (reviews : list Review) (acc : Z) :
  fold_left (λ sum review, sum + rating review) reviews acc =
  acc + foldr Z.add 0 (rating <$> reviews).
Proof.
  revert acc. induction reviews as [|r reviews IH]; intros acc; [simpl; lia |].
  rewrite fmap_cons. cbn [fold_left foldr]. rewrite IH. lia.
Qed.

Lemma Qeq_bool_positive_length (n : nat) :
  Qeq_bool (inject_Z (Z.of_nat (S n))) 0 = false.
Proof.
  destruct (Qeq_bool _ _) eqn:H; [| reflexivity].
  apply Qeq_bool_eq in H. unfold Qeq in H. simpl in H. lia.
Qed.

(** C5. The calculator always answers with a finite number: 0 for the empty
    sequence, and otherwise the sum of the [rating] fields divided by the
    number of reviews; the division is never by zero. *)
Theorem averageRating_mean (reviews : list Review) :
  ∃ q : Q,
    averageRating reviews = Num q ∧
    (reviews = [] → q = 0%Q) ∧
    (reviews ≠ [] →
     Z.of_nat (length reviews) ≠ 0 ∧
     q = (inject_Z (foldr Z.add 0%Z (rating <$> reviews)) /
          inject_Z (Z.of_nat (length reviews)))%Q).
Proof.
  unfold averageRating. destruct reviews as [|r reviews].
  - exists 0%Q. split; [reflexivity |]. split; [reflexivity | congruence].
  - replace (0 <? Z.of_nat (length (r :: reviews))) with true
      by (symmetry; apply Z.ltb_lt; simpl; lia).
    unfold js_div. simpl length. rewrite Qeq_bool_positive_length.
    eexists. split; [reflexivity |]. split; [discriminate |].
    intros _. split; [lia |].
    unfold sum_ratings. by rewrite sum_ratings_from.
Qed.

Lemma averageRating_mean_witness :
  ∃ q : Q, averageRating [review_of 4; review_of 5; review_of 3] = Num q ∧ (q == 4)%Q.
Proof.
  destruct (averageRating_mean [review_of 4; review_of 5; review_of 3])
    as (q & Hq & _ & Hmean).
  exists q. split; [exact Hq |].
  destruct Hmean as [_ ->]; [discriminate | reflexivity].
Defined.

Example averageRating_empty : averageRating [] = Num 0.
Proof. reflexivity. Qed.

(** ** Quantity adjustment *)

Lemma updateQuantity_items_lookup (cartItems : list CartItem) (itemId : string)
    (newQuantity : Z) (i : nat) :
  updateQuantity_items cartItems itemId newQuantity !! i =
  (λ item, if String.eqb (id item) itemId
           then with_quantity item newQuantity else item) <$> cartItems !! i.
Proof. unfold updateQuantity_items. apply list_lookup_fmap. Qed.

(** C7. A call with [newQuantity < 1] returns at once: no state is set, no
    request is made, the world is as before. With [newQuantity >= 1] the
    handler completes, first setting the component's items to a list of the
    same length in which an entry with the given id has the new quantity
    and its other fields as before and an entry with another id is as
    before; for a signed-in user whose upsert the store accepts, that list
    is also the user's stored cart. *)
Theorem updateQuantity_floor (user : option User) (cartItems : list CartItem)
    (itemId : string) (newQuantity : Z) (w : World) :
  (newQuantity < 1 →
   Cart.updateQuantity user cartItems itemId newQuantity w = (Normal tt, w)) ∧
  (1 ≤ newQuantity →
   ∃ updatedItems w' events,
     Cart.updateQuantity user cartItems itemId newQuantity w = (Normal tt, w') ∧
     ui w' = ui w ++ SetCartItems updatedItems :: events ∧
     (∀ u, user = Some u → faults w (UpsertCart (user_id u) updatedItems) = None →
           carts (store w') !! user_id u = Some (Some updatedItems)) ∧
     length updatedItems = length cartItems ∧
     ∀ (i : nat) (item : CartItem), cartItems !! i = Some item →
       (id item = itemId →
        updatedItems !! i =
          Some {| id := id item; name := name item; price := price item;
                  image := image item; quantity := newQuantity |}) ∧
       (id item ≠ itemId → updatedItems !! i = Some item)).
Proof.
  unfold Cart.updateQuantity. split; intros Hq.
  - by replace (newQuantity <? 1) with true by (symmetry; apply Z.ltb_lt; lia).
  - replace (newQuantity <? 1) with false by (symmetry; apply Z.ltb_ge; lia).
    exists (updateQuantity_items cartItems itemId newQuantity).
    assert (∃ w' events,
      (emit (SetCartItems (updateQuantity_items cartItems itemId newQuantity));;
       Cart.updateCartInDatabase user
         (updateQuantity_items cartItems itemId newQuantity)) w = (Normal tt, w') ∧
      ui w' = ui w ++
        SetCartItems (updateQuantity_items cartItems itemId newQuantity) :: events ∧
      (∀ u, user = Some u →
            faults w (UpsertCart (user_id u)
                        (updateQuantity_items cartItems itemId newQuantity)) = None →
            carts (store w') !! user_id u =
              Some (Some (updateQuantity_items cartItems itemId newQuantity))))
      as (w' & events & Hrun & Hui & Hcart).
    { unfold Cart.updateCartInDatabase. run_handler.
      destruct user as [u|]; simpl.
      - destruct (faults w (UpsertCart _ _)) eqn:Hf; simpl.
        + eexists _, [_; _]. split; [reflexivity |]. simpl.
          split; [by rewrite <- !app_assoc |]. intros ? [= <-]. congruence.
        + eexists _, []. split; [reflexivity |]. simpl.
          split; [done |]. intros ? [= <-] _. apply lookup_insert_eq.
      - eexists _, []. split; [reflexivity |]. simpl. split; [done | discriminate]. }
    exists w', events. split; [exact Hrun |]. split; [exact Hui |].
    split; [exact Hcart |]. split.
    + unfold updateQuantity_items. apply length_map.
    + intros i item Hi. rewrite updateQuantity_items_lookup, Hi. simpl.
      split; intros Hid.
      * apply String.eqb_eq in Hid. by rewrite Hid.
      * apply String.eqb_neq in Hid. by rewrite Hid.
Qed.

(** *** The stock loop *)

Lemma loop_frame_refl (w : World) : loop_frame w w.
Proof. repeat split. Qed.

Lemma loop_frame_trans (w1 w2 w3 : World) :
  loop_frame w1 w2 → loop_frame w2 w3 → loop_frame w1 w3.
Proof.
  unfold loop_frame. intros H1 H2.
  destruct H1 as (?&?&?&?&?&?&?&?&?), H2 as (?&?&?&?&?&?&?&?&?).
  repeat split; congruence.
Qed.

(** One iteration never throws. *)
Lemma updateStock_normal (item : CartItem) (w : World) :
  fst (Checkout.updateStock item w) = Normal tt.
Proof.
  unfold Checkout.updateStock. run_handler. simpl.
  destruct (faults w (SelectProductStock (id item))); [reflexivity |].
  destruct (products (store w) !! id item) as [p|]; simpl; [| reflexivity].
  destruct (faults w (UpdateProductStock _ _)); simpl;
    destruct (faults w (UpdateInventory _ _ _)); reflexivity.
Qed.

Lemma updateStock_frame (item : CartItem) (w : World) :
  loop_frame w (snd (Checkout.updateStock item w)).
Proof.
  unfold Checkout.updateStock. run_handler. simpl.
  destruct (faults w (SelectProductStock (id item))); [repeat split |].
  destruct (products (store w) !! id item) as [p|]; simpl; [| repeat split].
  destruct (faults w (UpdateProductStock _ _)); simpl;
    destruct (faults w (UpdateInventory _ _ _)); repeat split.
Qed.

(** An iteration touches the rows of its own item only. *)
Lemma updateStock_other (item : CartItem) (w : World) (pid : string) :
  id item ≠ pid →
  products (store (snd (Checkout.updateStock item w))) !! pid = products (store w) !! pid ∧
  inventory (store (snd (Checkout.updateStock item w))) !! pid = inventory (store w) !! pid.
Proof.
  intros Hne. unfold Checkout.updateStock. run_handler. simpl.
  destruct (faults w (SelectProductStock (id item))); [done |].
  destruct (products (store w) !! id item) as [p|]; simpl; [| done].
  destruct (faults w (UpdateProductStock _ _)); simpl;
    destruct (faults w (UpdateInventory _ _ _)); simpl;
    rewrite ?lookup_alter_ne by done; done.
Qed.

(** An item whose product row is missing changes nothing in the two tables. *)
Lemma updateStock_missing (item : CartItem) (w : World) :
  products (store w) !! id item = None →
  products (store (snd (Checkout.updateStock item w))) = products (store w) ∧
  inventory (store (snd (Checkout.updateStock item w))) = inventory (store w).
Proof.
  intros Hnone. unfold Checkout.updateStock. run_handler. simpl.
  destruct (faults w (SelectProductStock (id item))); [done |].
  by rewrite Hnone.
Qed.

(** An item whose product row exists, on a store that answers. *)
Lemma updateStock_present (item : CartItem) (w : World) (p : Product) :
  faults w = no_faults →
  products (store w) !! id item = Some p →
  products (store (snd (Checkout.updateStock item w))) !! id item =
    Some (with_stock (Z.max 0 (stock p - quantity item)) p) ∧
  inventory (store (snd (Checkout.updateStock item w))) !! id item =
    (λ _, {| inventory_stock := Z.max 0 (stock p - quantity item);
             last_updated := now w |}) <$> inventory (store w) !! id item.
Proof.
  intros Hf Hp. unfold Checkout.updateStock. run_handler. simpl.
  rewrite Hf. unfold no_faults at 1. rewrite Hp. simpl.
  repeat (rewrite Hf; unfold no_faults; simpl).
  by rewrite !lookup_alter_eq, Hp.
Qed.

Lemma for_of_cons {A} (item : A) (rest : list A) (body : A → M unit) (w : World) :
  fst (body item w) = Normal tt →
  for_of (item :: rest) body w = for_of rest body (snd (body item w)).
Proof.
  intros H. simpl. unfold mbind, M_bind, bind.
  destruct (body item w) as [c w1]. simpl in *. by subst c.
Qed.

Lemma stock_loop_normal (items : list CartItem) (w : World) :
  fst (for_of items Checkout.updateStock w) = Normal tt ∧
  loop_frame w (snd (for_of items Checkout.updateStock w)).
Proof.
  revert w. induction items as [|item rest IH]; intros w.
  - split; [reflexivity | apply loop_frame_refl].
  - rewrite for_of_cons by apply updateStock_normal.
    destruct (IH (snd (Checkout.updateStock item w))) as [Hn Hfr].
    split; [exact Hn |].
    eapply loop_frame_trans; [apply updateStock_frame | exact Hfr].
Qed.

Lemma stock_loop_other (items : list CartItem) (w : World) (pid : string) :
  (∀ item, item ∈ items → id item ≠ pid) →
  products (store (snd (for_of items Checkout.updateStock w))) !! pid =
    products (store w) !! pid ∧
  inventory (store (snd (for_of items Checkout.updateStock w))) !! pid =
    inventory (store w) !! pid.
Proof.
  revert w. induction items as [|item rest IH]; intros w Hne; [done |].
  rewrite for_of_cons by apply updateStock_normal.
  destruct (IH (snd (Checkout.updateStock item w))) as [-> ->].
  - intros x Hx. apply Hne. by right.
  - apply updateStock_other. apply Hne. left.
Qed.

Lemma stock_loop_missing (items : list CartItem) (w : World) (pid : string) :
  products (store w) !! pid = None →
  products (store (snd (for_of items Checkout.updateStock w))) !! pid = None ∧
  inventory (store (snd (for_of items Checkout.updateStock w))) !! pid =
    inventory (store w) !! pid.
Proof.
  revert w. induction items as [|item rest IH]; intros w Hnone; [done |].
  rewrite for_of_cons by apply updateStock_normal.
  assert (products (store (snd (Checkout.updateStock item w))) !! pid = None ∧
          inventory (store (snd (Checkout.updateStock item w))) !! pid =
            inventory (store w) !! pid) as [Hp Hi].
  { destruct (decide (id item = pid)) as [<- | Hne].
    - destruct (updateStock_missing item w Hnone) as [-> ->]. done.
    - destruct (updateStock_other item w pid Hne) as [-> ->]. done. }
  destruct (IH _ Hp) as [-> ->]. done.
Qed.

Lemma for_of_app {A} (l1 l2 : list A) (body : A → M unit) (w : World) :
  (∀ x w0, fst (body x w0) = Normal tt) →
  for_of (l1 ++ l2) body w = for_of l2 body (snd (for_of l1 body w)).
Proof.
  intros Hnormal. revert w. induction l1 as [|x l1 IH]; intros w; [done |].
  rewrite <- app_comm_cons, !for_of_cons by apply Hnormal. apply IH.
Qed.

(** The item at a position of the cart, when no other position carries its
    product id, on a store that answers. *)
Lemma stock_loop_present (l1 l2 : list CartItem) (w : World) (item : CartItem)
    (p : Product) :
  faults w = no_faults →
  (∀ other, other ∈ l1 ++ l2 → id other ≠ id item) →
  products (store w) !! id item = Some p →
  products (store (snd (for_of (l1 ++ item :: l2) Checkout.updateStock w))) !! id item =
    Some (with_stock (Z.max 0 (stock p - quantity item)) p) ∧
  inventory (store (snd (for_of (l1 ++ item :: l2) Checkout.updateStock w))) !! id item =
    (λ _, {| inventory_stock := Z.max 0 (stock p - quantity item);
             last_updated := now w |}) <$> inventory (store w) !! id item.
Proof.
  intros Hf Hother Hp.
  rewrite for_of_app, for_of_cons by (intros; apply updateStock_normal).
  destruct (stock_loop_normal l1 w) as (_ & _ & Hf1 & Hnow1 & _).
  destruct (stock_loop_other l1 w (id item)) as [Hp1 Hi1].
  { intros x Hx. apply Hother, elem_of_app. by left. }
  set (w1 := snd (for_of l1 Checkout.updateStock w)) in *.
  destruct (stock_loop_other l2 (snd (Checkout.updateStock item w1)) (id item))
    as [-> ->].
  { intros x Hx. apply Hother, elem_of_app. by right. }
  destruct (updateStock_present item w1 p) as [-> ->]; [congruence | congruence |].
  by rewrite Hnow1, Hi1.
Qed.

(** *** A checkout whose requests all succeed *)

Lemma handleSubmit_no_faults (user : User) (cartItems : list CartItem) (w : World) :
  faults w = no_faults →
  cartItems ≠ [] →
  Checkout.handleSubmit (Some user) cartItems w =
    (Normal tt,
     checkout_end user cartItems
       (snd (for_of cartItems Checkout.updateStock (checkout_begin user cartItems w)))).
Proof.
  intros Hf Hne. unfold Checkout.handleSubmit.
  replace (length cartItems =? 0)%nat with false
    by (destruct cartItems; [congruence | reflexivity]).
  pose proof (stock_loop_normal cartItems (checkout_begin user cartItems w)) as Hloop.
  set (loop := for_of cartItems Checkout.updateStock) in *. clearbody loop.
  unfold checkout_begin, new_points, placed_order in *.
  run_handler. simpl.
  repeat (rewrite Hf; unfold no_faults; simpl).
  destruct (loop _) as [c3 w3]. simpl in Hloop.
  destruct Hloop as [-> (_ & Hf3 & _)]. simpl in Hf3.
  rewrite Hf3, Hf. unfold no_faults, checkout_end, success_events. simpl.
  unfold add_ui, set_store, add_log. simpl. by rewrite <- !app_assoc.
Qed.

Lemma handleSubmit_no_faults_parts (user : User) (cartItems : list CartItem) (w : World) :
  faults w = no_faults →
  cartItems ≠ [] →
  ∃ w3 w',
    w3 = snd (for_of cartItems Checkout.updateStock (checkout_begin user cartItems w)) ∧
    Checkout.handleSubmit (Some user) cartItems w = (Normal tt, w') ∧
    products (store w') = products (store w3) ∧
    inventory (store w') = inventory (store w3) ∧
    orders (store w') = orders (store w) ++ [placed_order user cartItems] ∧
    profiles (store w') =
      alter (with_points (new_points user cartItems w)) (user_id user)
            (profiles (store w)) ∧
    carts (store w') = alter (λ _, Some []) (user_id user) (carts (store w)) ∧
    ui w' = ui w ++ SetIsProcessing true :: success_events cartItems.
Proof.
  intros Hf Hne. eexists _, _. split; [reflexivity |].
  split; [by apply handleSubmit_no_faults |].
  destruct (stock_loop_normal cartItems (checkout_begin user cartItems w))
    as (_ & _ & _ & _ & Hui & Ho & Hc & Hp & _).
  simpl. rewrite Ho, Hp, Hc, Hui. simpl.
  repeat split; try done. by rewrite <- app_assoc.
Qed.

Lemma elem_of_not_nil {A} (x : A) (l : list A) : x ∈ l → l ≠ [].
Proof. intros Hin ->. by apply elem_of_nil in Hin. Qed.

(** ** Order finalizer *)

(** C1. On a store that answers every request, a finalization completes
    normally and reports success whatever the stock levels are, and for a
    line item whose product row exists, and whose product id no other line
    of the cart carries, the row's stock becomes [max(0, stock - quantity)],
    as does the stock of its inventory row: never negative, and 0 when the
    quantity exceeds the stock. *)
Theorem handleSubmit_stock_clamp (user : User) (l1 l2 : list CartItem) (w : World)
    (item : CartItem) (p : Product) :
  faults w = no_faults →
  (∀ other, other ∈ l1 ++ l2 → id other ≠ id item) →
  products (store w) !! id item = Some p →
  ∃ w' newStock,
    Checkout.handleSubmit (Some user) (l1 ++ item :: l2) w = (Normal tt, w') ∧
    newStock = Z.max 0 (stock p - quantity item) ∧
    products (store w') !! id item =
      Some {| product_id := product_id p; product_name := product_name p;
              product_price := product_price p; product_image := product_image p;
              stock := newStock; category := category p |} ∧
    inventory_stock <$> inventory (store w') !! id item =
      (λ _, newStock) <$> inventory (store w) !! id item ∧
    0 ≤ newStock ∧
    (stock p < quantity item → newStock = 0) ∧
    ui w' = ui w ++
      [ SetIsProcessing true;
        Toast "Order placed successfully!"
              ("You earned " +:+
               pretty (Math_floor (getTotalPrice (l1 ++ item :: l2))) +:+
               " loyalty points!") false;
        Navigate "/orders";
        SetIsProcessing false ].
Proof.
  intros Hf Hother Hp.
  destruct (handleSubmit_no_faults_parts user (l1 ++ item :: l2) w Hf)
    as (w3 & w' & Hw3 & Hrun & Hprod & Hinv & _ & _ & _ & Hui).
  { by destruct l1. }
  destruct (stock_loop_present l1 l2 (checkout_begin user (l1 ++ item :: l2) w) item p)
    as [Hp3 Hi3]; try done.
  exists w', (Z.max 0 (stock p - quantity item)).
  rewrite Hprod, Hinv, Hw3, Hp3, Hi3. simpl.
  repeat split; try done; try lia.
  by destruct (inventory (store w) !! id item).
Qed.

Lemma profile_points_after (user : User) (cartItems : list CartItem) (w : World) :
  loyalty_points <$>
    alter (with_points (new_points user cartItems w)) (user_id user)
          (profiles (store w)) !! user_id user =
  (λ profile, loyalty_points profile + Math_floor (getTotalPrice cartItems)) <$>
    profiles (store w) !! user_id user.
Proof.
  rewrite lookup_alter_eq. unfold new_points.
  by destruct (profiles (store w) !! user_id user).
Qed.

(** *** The requests of a finalization *)

Lemma updateStock_log (item : CartItem) (w : World) :
  faults w = no_faults →
  dom (products (store (snd (Checkout.updateStock item w)))) = dom (products (store w)) ∧
  ∃ l, log (snd (Checkout.updateStock item w)) = log w ++ l ∧
       ∀ rest l', stock_requests (dom (products (store w))) rest l' →
                  stock_requests (dom (products (store w))) (item :: rest) (l ++ l').
Proof.
  intros Hf. unfold Checkout.updateStock. run_handler. simpl.
  rewrite Hf. unfold no_faults at 1.
  destruct (products (store w) !! id item) as [p|] eqn:Hp; simpl.
  - repeat (rewrite Hf; unfold no_faults; simpl).
    split; [apply dom_alter_L |].
    eexists [_; _; _]. split; [by rewrite <- !app_assoc |].
    intros rest l' Hrest. simpl. apply stock_requests_update; [| lia | done].
    apply elem_of_dom. by rewrite Hp.
  - split; [done |]. eexists [_]. split; [done |].
    intros rest l' Hrest. simpl. apply stock_requests_skip; [| done].
    by apply not_elem_of_dom.
Qed.

Lemma stock_loop_log (items : list CartItem) (w : World) :
  faults w = no_faults →
  ∃ l, log (snd (for_of items Checkout.updateStock w)) = log w ++ l ∧
       stock_requests (dom (products (store w))) items l.
Proof.
  revert w. induction items as [|item rest IH]; intros w Hf.
  - exists []. split; [by rewrite app_nil_r | constructor].
  - rewrite for_of_cons by apply updateStock_normal.
    destruct (updateStock_log item w Hf) as (Hdom & l1 & Hl1 & Hcons).
    pose proof (updateStock_frame item w) as (_ & Hf1 & _).
    destruct (IH (snd (Checkout.updateStock item w))) as (l2 & Hl2 & Hreq);
      [congruence |].
    exists (l1 ++ l2). split.
    + by rewrite Hl2, Hl1, <- app_assoc.
    + apply Hcons. by rewrite <- Hdom.
Qed.

(** Whatever else the store fails, an order whose insertion it accepted is
    in the store when the handler returns. *)
Lemma handleSubmit_order_kept (user : User) (cartItems : list CartItem) (w : World) :
  cartItems ≠ [] →
  faults w (InsertOrder (placed_order user cartItems)) = None →
  orders (store (snd (Checkout.handleSubmit (Some user) cartItems w))) =
    orders (store w) ++ [placed_order user cartItems].
Proof.
  intros Hne Hfo. unfold Checkout.handleSubmit.
  replace (length cartItems =? 0)%nat with false
    by (destruct cartItems; [congruence | reflexivity]).
  pose proof (stock_loop_normal cartItems) as Hloop.
  set (loop := for_of cartItems Checkout.updateStock) in *. clearbody loop.
  unfold placed_order in *. run_handler. simpl. rewrite Hfo. simpl.
  destruct (faults w (SelectProfilePoints _)); simpl;
    (destruct (faults w (UpdateProfilePoints _ _)); simpl; [reflexivity |]);
    match goal with
    | |- context [loop ?W] =>
        pose proof (Hloop W) as HW; destruct (loop W) as [c3 w3]
    end;
    simpl in HW; destruct HW as [-> (_ & _ & _ & _ & Ho & _)];
    destruct (faults w3 _); simpl; by rewrite Ho.
Qed.

(** A finalization whose points update the store fails. *)
Lemma handleSubmit_profile_failure (user : User) (cartItems : list CartItem) (w : World)
    (e : PgError) :
  cartItems ≠ [] →
  faults w (InsertOrder (placed_order user cartItems)) = None →
  (∀ points, faults w (UpdateProfilePoints (user_id user) points) = Some e) →
  ∃ w',
    Checkout.handleSubmit (Some user) cartItems w = (Normal tt, w') ∧
    store w' = with_orders (λ os, os ++ [placed_order user cartItems]) (store w) ∧
    (∃ points, log w' = log w ++ [ InsertOrder (placed_order user cartItems);
                                   SelectProfilePoints (user_id user);
                                   UpdateProfilePoints (user_id user) points ]) ∧
    ui w' = ui w ++
      [ SetIsProcessing true;
        ConsoleError "Error processing order:";
        Toast "Error" "Failed to process your order. Please try again." true;
        SetIsProcessing false ].
Proof.
  intros Hne Hfo Hfp. unfold Checkout.handleSubmit.
  replace (length cartItems =? 0)%nat with false
    by (destruct cartItems; [congruence | reflexivity]).
  set (loop := for_of cartItems Checkout.updateStock) in *. clearbody loop.
  unfold placed_order in *. run_handler. simpl. rewrite Hfo. simpl.
  destruct (faults w (SelectProfilePoints _)); simpl; rewrite Hfp; simpl;
    eexists; (split; [reflexivity |]); simpl;
    (split; [reflexivity |]);
    (split; [eexists; by rewrite <- !app_assoc | by rewrite <- !app_assoc]).
Qed.

(** ** Wishlist *)

(** C9. For a signed-in user, adding a product to the wishlist is reported
    as a success, with the store unchanged, when the pair is already in the
    wishlist (the store answers the insert with its duplicate-key error) and
    whenever the insert comes back with an error of code 23505; an insert
    that comes back with any other error is reported as an error; an insert
    of a new pair adds it and is reported as a success. Adding the same
    product a second time therefore changes nothing in the store and shows
    the same success toast. The product card's handler behaves the same and
    also calls [onAddToWishlist] on success. *)
Theorem handleAddToWishlist_duplicate (user : User) (product : Product) (w : World) :
  session w = Some user →
  let request := InsertWishlist (user_id user) (product_id product) in
  let pair := (user_id user, product_id product) in
  let success :=
    [ Toast "Added to wishlist"
            (product_name product +:+ " has been added to your wishlist") false ] in
  let failure :=
    [ ConsoleError "Error adding to wishlist:";
      Toast "Error" "Failed to add item to wishlist" true ] in
  (faults w request = None → pair ∈ wishlists (store w) →
   reports (ProductDetail.handleAddToWishlist product) w (store w) success ∧
   reports (ProductCard.handleAddToWishlist product) w (store w)
           (success ++ [Call "onAddToWishlist"])) ∧
  (∀ e, faults w request = Some e → code e = "23505" →
   reports (ProductDetail.handleAddToWishlist product) w (store w) success ∧
   reports (ProductCard.handleAddToWishlist product) w (store w)
           (success ++ [Call "onAddToWishlist"])) ∧
  (∀ e, faults w request = Some e → code e ≠ "23505" →
   reports (ProductDetail.handleAddToWishlist product) w (store w) failure ∧
   reports (ProductCard.handleAddToWishlist product) w (store w) failure) ∧
  (faults w request = None → pair ∉ wishlists (store w) →
   reports (ProductDetail.handleAddToWishlist product) w
           (with_wishlists (λ ws, ws ∪ {[ pair ]}) (store w)) success ∧
   reports (ProductCard.handleAddToWishlist product) w
           (with_wishlists (λ ws, ws ∪ {[ pair ]}) (store w))
           (success ++ [Call "onAddToWishlist"])) ∧
  (faults w request = None →
   let w1 := snd (ProductDetail.handleAddToWishlist product w) in
   reports (ProductDetail.handleAddToWishlist product) w1 (store w1) success).
Proof.
  intros Hs request pair success failure.
  subst request pair success failure.
  unfold reports, ProductDetail.handleAddToWishlist, ProductCard.handleAddToWishlist.
  run_handler. simpl. rewrite Hs. simpl.
  split; [| split; [| split; [| split]]].
  - intros Hf Hin. rewrite Hf, bool_decide_eq_true_2 by done. simpl.
    split; eexists; repeat split; simpl; by rewrite <- ?app_assoc.
  - intros e Hf Hcode. rewrite Hf. simpl. rewrite Hcode. simpl.
    split; eexists; repeat split; simpl; by rewrite <- ?app_assoc.
  - intros e Hf Hcode. rewrite Hf. simpl.
    apply String.eqb_neq in Hcode. rewrite Hcode. simpl.
    split; eexists; repeat split; simpl; by rewrite <- ?app_assoc.
  - intros Hf Hin. rewrite Hf, bool_decide_eq_false_2 by done. simpl.
    split; eexists; repeat split; simpl; by rewrite <- ?app_assoc.
  - intros Hf. rewrite Hf.
    case_bool_decide; simpl; rewrite Hs; simpl; rewrite Hf.
    + rewrite bool_decide_eq_true_2 by done. simpl.
      eexists; repeat split; simpl; by rewrite <- ?app_assoc.
    + rewrite bool_decide_eq_true_2 by set_solver. simpl.
      eexists; repeat split; simpl; by rewrite <- ?app_assoc.
Qed.

(** ** The properties at concrete inputs *)

Lemma handleSubmit_stock_clamp_witness :
  ∃ w', Checkout.handleSubmit (Some alice) [pear_item; apple_item 5]
          (signed_in 3 no_faults) = (Normal tt, w') ∧
        stock <$> products (store w') !! "A" = Some 0.
Proof.
  destruct (handleSubmit_stock_clamp alice [pear_item] [] (signed_in 3 no_faults)
              (apple_item 5) (with_stock 3 apple))
    as (w' & newStock & Hrun & HnewStock & Hproduct & _).
  - reflexivity.
  - intros other Hin. apply list_elem_of_singleton in Hin. subst other. discriminate.
  - vm_compute. reflexivity.
  - exists w'. split; [exact Hrun |].
    simpl in Hproduct. rewrite Hproduct, HnewStock. reflexivity.
Defined.

Lemma updateQuantity_floor_witness :
  Cart.updateQuantity (Some alice) [apple_item 2; pear_item] "A" 0 (signed_in 5 no_faults) =
    (Normal tt, signed_in 5 no_faults) ∧
  ∃ updatedItems w',
    Cart.updateQuantity (Some alice) [apple_item 2; pear_item] "A" 3
      (signed_in 5 no_faults) = (Normal tt, w') ∧
    carts (store w') !! "u" = Some (Some updatedItems) ∧
    updatedItems !! 0%nat = Some (apple_item 3) ∧
    updatedItems !! 1%nat = Some pear_item.
Proof.
  split.
  - apply (updateQuantity_floor (Some alice) [apple_item 2; pear_item] "A" 0
             (signed_in 5 no_faults)). lia.
  - destruct (updateQuantity_floor (Some alice) [apple_item 2; pear_item] "A" 3
                (signed_in 5 no_faults)) as [_ Hset].
    destruct Hset as (updatedItems & w' & events & Hrun & _ & Hcart & _ & Hitems);
      [lia |].
    exists updatedItems, w'. split; [exact Hrun |]. split; [| split].
    + apply (Hcart alice); reflexivity.
    + apply (Hitems 0%nat (apple_item 2)); reflexivity.
    + apply (Hitems 1%nat pear_item); [reflexivity | discriminate].
Defined.

Lemma handleAddToWishlist_duplicate_witness :
  let once := snd (ProductDetail.handleAddToWishlist apple (signed_in 5 no_faults)) in
  reports (ProductDetail.handleAddToWishlist apple) once (store once)
    [ Toast "Added to wishlist" "Apple has been added to your wishlist" false ] ∧
  reports (ProductDetail.handleAddToWishlist apple)
    (signed_in 5 (fail_when (λ _, true))) (apple_store 5)
    [ ConsoleError "Error adding to wishlist:";
      Toast "Error" "Failed to add item to wishlist" true ].
Proof.
  split.
  - apply (handleAddToWishlist_duplicate alice apple (signed_in 5 no_faults));
      reflexivity.
  - destruct (handleAddToWishlist_duplicate alice apple
                (signed_in 5 (fail_when (λ _, true)))) as (_ & _ & Hother & _);
      [reflexivity |].
    apply (Hother {| code := "08006"; message := "connection failure" |});
      [reflexivity | discriminate].
Defined.

(** The end-to-end scenario: from no cart at all, the product (price 10,
    stock 5) is added twice and the cart is checked out. *)
Example end_to_end :
  let w1 := snd (ProductCard.handleAddToCart (with_stock 5 apple) (signed_in 5 no_faults)) in
  let w2 := snd (ProductCard.handleAddToCart (with_stock 5 apple) w1) in
  let w3 := snd (Checkout.handleSubmit (Some alice) [apple_item 2] w2) in
  carts (store w2) !! "u" = Some (Some [apple_item 2]) ∧
  (total <$> orders (store w3)) = [20%float] ∧
  stock <$> products (store w3) !! "A" = Some 3 ∧
  inventory_stock <$> inventory (store w3) !! "A" = Some 3 ∧
  carts (store w3) !! "u" = Some (Some []) ∧
  loyalty_points <$> profiles (store w3) !! "u" = Some 20.
Proof. vm_compute. repeat split. Qed.

(** * Further properties *)

(** ** The cart as a list *)

(** The two cases of the merge. *)
Lemma updatedProducts_cases (items : list CartItem) (product : Product) :
  (Forall (λ item, id item ≠ product_id product) items ∧
   List.find (λ item, String.eqb (id item) (product_id product)) items = None ∧
   updatedProducts items product =
     items ++ [ {| id := product_id product; name := product_name product;
                   price := product_price product; image := product_image product;
                   quantity := 1 |} ]) ∨
  (∃ l1 item l2,
     items = l1 ++ item :: l2 ∧ id item = product_id product ∧
     Forall (λ other, id other ≠ product_id product) l1 ∧
     List.find (λ item, String.eqb (id item) (product_id product)) items = Some item ∧
     updatedProducts items product =
       l1 ++ with_quantity item (quantity item + 1) :: l2).
Proof.
  unfold updatedProducts.
  destruct (findIndex_spec (λ item, String.eqb (id item) (product_id product)) items)
    as [[Hall Hres] | (l1 & x & l2 & Hsplit & Hall & Hx & Hres)]; rewrite Hres.
  - left. split; [| split; [| reflexivity]].
    + eapply Forall_impl; [exact Hall |]. intros item Hitem. by apply String.eqb_neq.
    + clear Hres. induction Hall as [|item rest Hitem _ IH]; [done |].
      simpl. by rewrite Hitem.
  - right. exists l1, x, l2.
    replace (0 <=? Z.of_nat (length l1)) with true by (symmetry; apply Z.leb_le; lia).
    rewrite Nat2Z.id. split; [exact Hsplit |].
    split; [by apply String.eqb_eq |]. split; [| split].
    + eapply Forall_impl; [exact Hall |]. intros item Hitem. by apply String.eqb_neq.
    + subst items. clear Hres. induction Hall as [|item rest Hitem _ IH]; simpl.
      * by rewrite Hx.
      * by rewrite Hitem.
    + subst items. rewrite <- (Nat.add_0_r (length l1)). by rewrite alter_app_r.
Qed.

(** X1. After the merge the cart holds an entry with the product's id, and
    its length has grown by one exactly when no entry had that id. *)
Theorem updatedProducts_contains (items : list CartItem) (product : Product) :
  (∃ item, item ∈ updatedProducts items product ∧ id item = product_id product) ∧
  length (updatedProducts items product) =
    (length items +
     if bool_decide (product_id product ∈ id <$> items) then 0 else 1)%nat.
Proof.
  destruct (updatedProducts_cases items product)
    as [(Hall & _ & ->) | (l1 & x & l2 & -> & Hx & _ & _ & ->)].
  - split.
    + eexists. split; [apply elem_of_app; right; left | reflexivity].
    + rewrite length_app. simpl. rewrite bool_decide_eq_false_2; [done |].
      intros Hin. apply list_elem_of_fmap in Hin as (item & Hid & Hitem).
      rewrite Forall_forall in Hall. by apply (Hall item Hitem).
  - split.
    + exists (with_quantity x (quantity x + 1)).
      split; [apply elem_of_app; right; left | exact Hx].
    + rewrite !length_app. simpl. rewrite bool_decide_eq_true_2; [lia |].
      rewrite fmap_app, fmap_cons, Hx. apply elem_of_app. right. left.
Qed.

Lemma updatedProducts_ids (items : list CartItem) (product : Product) :
  id <$> updatedProducts items product =
    if bool_decide (product_id product ∈ id <$> items)
    then id <$> items else (id <$> items) ++ [product_id product].
Proof.
  destruct (updatedProducts_cases items product)
    as [(Hall & _ & ->) | (l1 & x & l2 & -> & Hx & _ & _ & ->)].
  - rewrite bool_decide_eq_false_2.
    + by rewrite fmap_app.
    + intros Hin. apply list_elem_of_fmap in Hin as (item & Hid & Hitem).
      rewrite Forall_forall in Hall. by apply (Hall item Hitem).
  - rewrite bool_decide_eq_true_2.
    + by rewrite !fmap_app, !fmap_cons.
    + rewrite fmap_app, fmap_cons, Hx. apply elem_of_app. right. left.
Qed.

Lemma updateQuantity_items_ids (items : list CartItem) (itemId : string)
    (newQuantity : Z) :
  id <$> updateQuantity_items items itemId newQuantity = id <$> items.
Proof.
  unfold updateQuantity_items. induction items as [|item rest IH]; [done |].
  cbn [map]. rewrite !fmap_cons, IH. f_equal. by destruct (String.eqb _ _).
Qed.

(** X2. The two invariants of a cart, distinct product ids and quantities
    of at least 1, are kept by the merge, by the quantity update that
    passes the guard of updateQuantity, and by the removal. *)
Theorem cart_invariants_kept (items : list CartItem) (product : Product)
    (itemId : string) (newQuantity : Z) :
  NoDup (id <$> items) →
  Forall (λ item, 1 ≤ quantity item) items →
  (NoDup (id <$> updatedProducts items product) ∧
   Forall (λ item, 1 ≤ quantity item) (updatedProducts items product)) ∧
  (1 ≤ newQuantity →
   NoDup (id <$> updateQuantity_items items itemId newQuantity) ∧
   Forall (λ item, 1 ≤ quantity item) (updateQuantity_items items itemId newQuantity)) ∧
  (NoDup (id <$> removeItem_items items itemId) ∧
   Forall (λ item, 1 ≤ quantity item) (removeItem_items items itemId)).
Proof.
  intros Hnd Hpos. split; [| split].
  - split.
    + rewrite updatedProducts_ids. case_bool_decide as Hin; [done |].
      apply NoDup_app. split; [done |]. split; [| apply NoDup_singleton].
      intros x Hx Hx'. apply list_elem_of_singleton in Hx'. by subst x.
    + destruct (updatedProducts_cases items product)
        as [(_ & _ & ->) | (l1 & x & l2 & -> & _ & _ & _ & ->)].
      * apply Forall_app. split; [done |]. by repeat constructor.
      * apply Forall_app in Hpos as [H1 H2]. apply Forall_cons in H2 as [Hx H2].
        apply Forall_app. split; [done |]. constructor; [simpl; lia | done].
  - intros Hq. unfold updateQuantity_items. split.
    + fold (updateQuantity_items items itemId newQuantity).
      by rewrite updateQuantity_items_ids.
    + apply Forall_fmap. eapply Forall_impl; [exact Hpos |].
      intros item Hitem. simpl. by destruct (String.eqb _ _).
  - unfold removeItem_items. split.
    + eapply sublist_NoDup; [exact Hnd |].
      apply fmap_sublist, sublist_filter.
    + apply Forall_forall. intros item Hin.
      apply list_elem_of_filter in Hin as [_ Hin].
      rewrite Forall_forall in Hpos. by apply Hpos.
Qed.

Lemma cart_invariants_kept_witness :
  NoDup (id <$> updatedProducts [pear_item; apple_item 1] apple) ∧
  Forall (λ item, 1 ≤ quantity item) (updateQuantity_items [pear_item; apple_item 1] "A" 4).
Proof.
  destruct (cart_invariants_kept [pear_item; apple_item 1] apple "A" 4)
    as ((Hmerge & _) & Hupdate & _).
  - simpl. apply NoDup_cons. split; [| apply NoDup_singleton].
    intros Hin. apply list_elem_of_singleton in Hin. discriminate.
  - repeat constructor; simpl; lia.
  - split; [exact Hmerge |]. apply Hupdate. lia.
Defined.

(** X3. Merging one product [n] times into an empty cart gives a single
    entry of quantity [n], never several entries. *)
Theorem updatedProducts_iterated (product : Product) (n : nat) :
  Nat.iter (S n) (λ items, updatedProducts items product) [] =
    [ {| id := product_id product; name := product_name product;
         price := product_price product; image := product_image product;
         quantity := Z.of_nat (S n) |} ].
Proof.
  induction n as [|n IH]; [reflexivity |].
  change (Nat.iter (S (S n)) _ []) with
    (updatedProducts (Nat.iter (S n) (λ items, updatedProducts items product) [])
                     product).
  rewrite IH. unfold updatedProducts, findIndex. simpl findIndex_from.
  cbn [id]. rewrite String.eqb_refl. simpl.
  unfold with_quantity. simpl. do 2 f_equal. lia.
Qed.

Lemma getTotalItems_from (cartItems : list CartItem) (acc : Z) :
  fold_left (λ total item, total + quantity item) cartItems acc =
    acc + CartSummary.getTotalItems cartItems.
Proof.
  unfold CartSummary.getTotalItems. revert acc.
  induction cartItems as [|item rest IH]; intros acc; cbn [fold_left]; [lia |].
  rewrite (IH (acc + quantity item)), (IH (0 + quantity item)). lia.
Qed.

Lemma getTotalItems_app (l1 l2 : list CartItem) :
  CartSummary.getTotalItems (l1 ++ l2) =
    CartSummary.getTotalItems l1 + CartSummary.getTotalItems l2.
Proof.
  unfold CartSummary.getTotalItems at 1. rewrite fold_left_app.
  rewrite getTotalItems_from. reflexivity.
Qed.

Lemma getTotalItems_cons (item : CartItem) (rest : list CartItem) :
  CartSummary.getTotalItems (item :: rest) =
    quantity item + CartSummary.getTotalItems rest.
Proof.
  unfold CartSummary.getTotalItems at 1. simpl. apply getTotalItems_from.
Qed.

(** X4. Every add-to-cart raises the item count of the cart page by exactly
    one, whether the product was in the cart or not. *)
Theorem getTotalItems_updatedProducts (items : list CartItem) (product : Product) :
  CartSummary.getTotalItems (updatedProducts items product) =
    CartSummary.getTotalItems items + 1.
Proof.
  destruct (updatedProducts_cases items product)
    as [(_ & _ & ->) | (l1 & x & l2 & -> & _ & _ & _ & ->)].
  - rewrite getTotalItems_app. reflexivity.
  - rewrite !getTotalItems_app, !getTotalItems_cons. simpl. lia.
Qed.

(** X5. An add of a product that is not in the cart yet raises the cart
    total by one binary64 addition of the product's price (times 1) to the
    total before; an add of a product that is in the cart does not consult
    the product's current price, name or image: any product with that id
    gives the same cart, in which the entry keeps the price stored with
    it. *)
Theorem getTotalPrice_updatedProducts (items : list CartItem) (product : Product) :
  ((∀ item, item ∈ items → id item ≠ product_id product) →
   getTotalPrice (updatedProducts items product) =
     (getTotalPrice items + product_price product * of_Z 1)%float) ∧
  (∀ product',
     product_id product ∈ id <$> items →
     product_id product' = product_id product →
     updatedProducts items product' = updatedProducts items product).
Proof.
  split.
  - intros Habsent.
    destruct (updatedProducts_cases items product)
      as [(_ & _ & ->) | (l1 & x & l2 & -> & Hx & _)].
    + unfold getTotalPrice. by rewrite fold_left_app.
    + exfalso. apply (Habsent x); [| exact Hx]. apply elem_of_app. right. left.
  - intros product' Hin Hid. unfold updatedProducts. rewrite Hid.
    destruct (findIndex_spec (λ item, String.eqb (id item) (product_id product)) items)
      as [[Hall _] | (l1 & x & l2 & _ & _ & _ & ->)].
    + exfalso. apply list_elem_of_fmap in Hin as (item & Hitem & Hmem).
      rewrite Forall_forall in Hall. specialize (Hall item Hmem). simpl in Hall.
      apply String.eqb_neq in Hall. congruence.
    + by replace (0 <=? Z.of_nat (length l1)) with true
        by (symmetry; apply Z.leb_le; lia).
Qed.

Lemma getTotalPrice_updatedProducts_witness :
  getTotalPrice (updatedProducts [pear_item] apple) =
    (getTotalPrice [pear_item] + 10 * of_Z 1)%float ∧
  updatedProducts [pear_item; apple_item 1]
    {| product_id := "P"; product_name := "Pear, repriced"; product_price := 4%float;
       product_image := None; stock := 12; category := None |} =
    updatedProducts [pear_item; apple_item 1] pear.
Proof.
  destruct (getTotalPrice_updatedProducts [pear_item] apple) as [Hnew _].
  destruct (getTotalPrice_updatedProducts [pear_item; apple_item 1] pear) as [_ Hold].
  split.
  - apply Hnew. intros item Hin. apply list_elem_of_singleton in Hin.
    subst item. discriminate.
  - apply Hold; [left | reflexivity].
Defined.

Lemma removeItem_items_absent (items : list CartItem) (itemId : string) :
  itemId ∉ id <$> items → removeItem_items items itemId = items.
Proof.
  unfold removeItem_items. induction items as [|item rest IH]; intros Hnotin; [done |].
  rewrite fmap_cons in Hnotin. apply not_elem_of_cons in Hnotin as [Hne Hrest].
  rewrite filter_cons. destruct (decide (id item ≠ itemId)) as [_ | Heq].
  - f_equal. by apply IH.
  - exfalso. apply Heq. congruence.
Qed.

(** X6. The removal drops every entry with the given id, duplicates
    included, and nothing else: what is left are the other entries in
    their order, and a list without the id comes back as it is. *)
Theorem removeItem_items_spec (items : list CartItem) (itemId : string) :
  (∀ item, item ∈ removeItem_items items itemId ↔ item ∈ items ∧ id item ≠ itemId) ∧
  (itemId ∉ id <$> removeItem_items items itemId) ∧
  (removeItem_items items itemId `sublist_of` items) ∧
  (itemId ∉ id <$> items → removeItem_items items itemId = items).
Proof.
  split; [| split; [| split]].
  - intros item. unfold removeItem_items. rewrite list_elem_of_filter. tauto.
  - intros Hin. apply list_elem_of_fmap in Hin as (item & Hid & Hitem).
    unfold removeItem_items in Hitem. apply list_elem_of_filter in Hitem as [Hne _].
    by apply Hne.
  - apply sublist_filter.
  - apply removeItem_items_absent.
Qed.

Lemma removeItem_items_spec_witness :
  removeItem_items [pear_item; apple_item 2] "G" = [pear_item; apple_item 2].
Proof.
  apply (removeItem_items_spec [pear_item; apple_item 2] "G").
  intros Hin. simpl in Hin.
  apply elem_of_cons in Hin as [Hin | Hin]; [discriminate |].
  apply list_elem_of_singleton in Hin. discriminate.
Defined.

(** X7. Removing a product just added undoes the add: the cart is what the
    removal would have left without the add, and when the product was not
    in the cart it is the cart as it was. *)
Theorem removeItem_after_merge (items : list CartItem) (product : Product) :
  removeItem_items (updatedProducts items product) (product_id product) =
    removeItem_items items (product_id product) ∧
  (product_id product ∉ id <$> items →
   removeItem_items (updatedProducts items product) (product_id product) = items).
Proof.
  assert (removeItem_items (updatedProducts items product) (product_id product) =
          removeItem_items items (product_id product)) as Heq.
  { unfold removeItem_items.
    destruct (updatedProducts_cases items product)
      as [(_ & _ & ->) | (l1 & x & l2 & -> & Hx & _ & _ & ->)].
    - rewrite filter_app, filter_cons. simpl.
      destruct (decide (product_id product ≠ product_id product)); [done |].
      by rewrite filter_nil, app_nil_r.
    - rewrite !filter_app, !filter_cons. simpl.
      destruct (decide (id x ≠ product_id product)); [done |].
      reflexivity. }
  split; [exact Heq |]. intros Habsent. rewrite Heq.
  by apply removeItem_items_absent.
Qed.

Lemma removeItem_after_merge_witness :
  removeItem_items (updatedProducts [pear_item] apple) "A" = [pear_item].
Proof.
  apply (removeItem_after_merge [pear_item] apple).
  intros Hin. apply list_elem_of_singleton in Hin. discriminate.
Defined.

(** X8. Of two quantity updates of one id the later wins, and an update of
    an id that is not in the cart changes nothing (no entry is created). *)
Theorem updateQuantity_items_overwrite (items : list CartItem) (itemId : string)
    (q1 q2 : Z) :
  updateQuantity_items (updateQuantity_items items itemId q1) itemId q2 =
    updateQuantity_items items itemId q2 ∧
  (itemId ∉ id <$> items → updateQuantity_items items itemId q2 = items).
Proof.
  unfold updateQuantity_items. split.
  - rewrite map_map. apply map_ext. intros item.
    destruct (String.eqb (id item) itemId) eqn:Hid; simpl; by rewrite Hid.
  - induction items as [|item rest IH]; intros Habsent; [done |].
    rewrite fmap_cons in Habsent. apply not_elem_of_cons in Habsent as [Hne Hrest].
    simpl. rewrite IH by done.
    replace (String.eqb (id item) itemId) with false; [done |].
    symmetry. apply String.eqb_neq. congruence.
Qed.

Lemma updateQuantity_items_overwrite_witness :
  updateQuantity_items [pear_item; apple_item 2] "G" 7 = [pear_item; apple_item 2].
Proof.
  apply (updateQuantity_items_overwrite [pear_item; apple_item 2] "G" 1 7).
  intros Hin. simpl in Hin.
  apply elem_of_cons in Hin as [Hin | Hin]; [discriminate |].
  apply list_elem_of_singleton in Hin. discriminate.
Defined.

(** X9. removeItem never throws and always ends by announcing "Item
    removed", also when the store has rejected the update of the cart and
    the error toast has just been shown; the stored cart is the filtered
    list when the update is accepted and stays as it was when it is
    rejected. *)
Theorem removeItem_always_announces (user : User) (cartItems : list CartItem)
    (itemId : string) (w : World) :
  let updatedItems := removeItem_items cartItems itemId in
  let removed := Toast "Item removed" "Item has been removed from your cart" false in
  (faults w (UpsertCart (user_id user) updatedItems) = None →
   ∃ w', Cart.removeItem (Some user) cartItems itemId w = (Normal tt, w') ∧
         carts (store w') !! user_id user = Some (Some updatedItems) ∧
         ui w' = ui w ++ [ SetCartItems updatedItems; removed ]) ∧
  (∀ e, faults w (UpsertCart (user_id user) updatedItems) = Some e →
   ∃ w', Cart.removeItem (Some user) cartItems itemId w = (Normal tt, w') ∧
         store w' = store w ∧
         ui w' = ui w ++ [ SetCartItems updatedItems;
                           ConsoleError "Error updating cart:";
                           Toast "Error" "Failed to update cart" true;
                           removed ]).
Proof.
  intros updatedItems removed. subst updatedItems removed.
  unfold Cart.removeItem, Cart.updateCartInDatabase. run_handler. simpl.
  split.
  - intros Hf. rewrite Hf. simpl. eexists. split; [reflexivity |]. simpl.
    split; [apply lookup_insert_eq | by rewrite <- !app_assoc].
  - intros e Hf. rewrite Hf. simpl. eexists. split; [reflexivity |]. simpl.
    split; [reflexivity | by rewrite <- !app_assoc].
Qed.

Lemma removeItem_always_announces_witness :
  ∃ w', Cart.removeItem (Some alice) [pear_item; apple_item 2] "A"
          (signed_in 5 (fail_when (λ _, true))) = (Normal tt, w') ∧
        store w' = apple_store 5 ∧
        ui w' = [ SetCartItems [pear_item];
                  ConsoleError "Error updating cart:";
                  Toast "Error" "Failed to update cart" true;
                  Toast "Item removed" "Item has been removed from your cart" false ].
Proof.
  destruct (removeItem_always_announces alice [pear_item; apple_item 2] "A"
              (signed_in 5 (fail_when (λ _, true)))) as [_ Hrejected].
  apply (Hrejected {| code := "08006"; message := "connection failure" |}).
  reflexivity.
Defined.

(** ** Ratings and stars *)

Lemma averageRating_cons (r : Review) (reviews : list Review) :
  averageRating (r :: reviews) =
    Num (inject_Z (foldr Z.add 0 (rating <$> r :: reviews)) /
         inject_Z (Z.of_nat (S (length reviews)))).
Proof.
  unfold averageRating.
  replace (0 <? Z.of_nat (length (r :: reviews))) with true
    by (symmetry; apply Z.ltb_lt; simpl; lia).
  unfold js_div. simpl length. rewrite Qeq_bool_positive_length.
  unfold sum_ratings. by rewrite sum_ratings_from.
Qed.

Lemma sum_ratings_bounds (reviews : list Review) (lo hi : Z) :
  Forall (λ review, lo ≤ rating review ≤ hi) reviews →
  lo * Z.of_nat (length reviews) ≤ foldr Z.add 0 (rating <$> reviews) ≤
  hi * Z.of_nat (length reviews).
Proof.
  induction 1 as [|review rest Hreview _ IH]; [simpl; lia |].
  rewrite fmap_cons. cbn [foldr length]. lia.
Qed.

(** X10. The average of a non-empty sequence of reviews lies between the
    bounds of its ratings: ratings from 1 to 5 give an average from 1 to 5. *)
Theorem averageRating_bounds (reviews : list Review) (lo hi : Z) :
  reviews ≠ [] →
  Forall (λ review, lo ≤ rating review ≤ hi) reviews →
  ∃ q : Q, averageRating reviews = Num q ∧ (inject_Z lo <= q)%Q ∧ (q <= inject_Z hi)%Q.
Proof.
  intros Hne Hall. destruct reviews as [|r reviews]; [done |].
  rewrite averageRating_cons. eexists. split; [reflexivity |].
  pose proof (sum_ratings_bounds (r :: reviews) lo hi Hall) as [Hlo Hhi].
  simpl length in Hlo, Hhi.
  assert (0 < inject_Z (Z.of_nat (S (length reviews))))%Q as Hpos.
  { change 0%Q with (inject_Z 0). rewrite <- Zlt_Qlt. lia. }
  split.
  - apply Qle_shift_div_l; [exact Hpos |].
    rewrite <- inject_Z_mult, <- Zle_Qle. exact Hlo.
  - apply Qle_shift_div_r; [exact Hpos |].
    rewrite <- inject_Z_mult, <- Zle_Qle. exact Hhi.
Qed.

Lemma averageRating_bounds_witness :
  ∃ q : Q, averageRating [review_of 4; review_of 5; review_of 2] = Num q ∧
           (inject_Z 1 <= q)%Q ∧ (q <= inject_Z 5)%Q.
Proof.
  apply (averageRating_bounds [review_of 4; review_of 5; review_of 2] 1 5).
  - discriminate.
  - repeat constructor; simpl; lia.
Defined.

Lemma filled_prefix (f : Z) :
  map (λ i : Z, i <? f) (seqZ 0 5) =
    replicate (Z.to_nat (Z.min 5 (Z.max 0 f))) true ++
    replicate (5 - Z.to_nat (Z.min 5 (Z.max 0 f))) false.
Proof.
  change (seqZ 0 5) with [0; 1; 2; 3; 4]. cbn [map].
  assert (f ≤ 0 ∨ f = 1 ∨ f = 2 ∨ f = 3 ∨ f = 4 ∨ 5 ≤ f)
    as [H | [-> | [-> | [-> | [-> | H]]]]] by lia; try reflexivity.
  - replace (Z.min 5 (Z.max 0 f)) with 0 by lia.
    rewrite !(proj2 (Z.ltb_ge _ _)) by lia. reflexivity.
  - replace (Z.min 5 (Z.max 0 f)) with 5 by lia.
    rewrite !(proj2 (Z.ltb_lt _ _)) by lia. reflexivity.
Qed.

(** X11. renderStars of the product card returns five stars, the first
    [floor(rating)] of them filled (none below 1, all five from 5 on) and
    the others empty. *)
Theorem renderStars_card_prefix (rating : Q) :
  Stars.renderStars_card rating =
    replicate (Z.to_nat (Z.min 5 (Z.max 0 (Qfloor rating)))) true ++
    replicate (5 - Z.to_nat (Z.min 5 (Z.max 0 (Qfloor rating)))) false.
Proof. apply filled_prefix. Qed.

Lemma below_rating (rating : Q) (i : Z) :
  negb (Qle_bool rating (inject_Z i)) = (i <? Qceiling rating).
Proof.
  destruct (Qle_bool rating (inject_Z i)) eqn:Hle; simpl; symmetry.
  - apply Z.ltb_ge. apply Qle_bool_iff in Hle.
    apply Qceiling_resp_le in Hle. by rewrite Qceiling_Z in Hle.
  - apply Z.ltb_lt. apply Z.nle_gt. intros Habs.
    assert (Qle_bool rating (inject_Z i) = true) as Htrue; [| congruence].
    apply Qle_bool_iff. eapply Qle_trans; [apply Qle_ceiling |].
    by rewrite <- Zle_Qle.
Qed.

Lemma renderStars_filled (rating : Q) (interactive : bool) :
  Stars.filled <$> Stars.renderStars rating interactive =
    replicate (Z.to_nat (Z.min 5 (Z.max 0 (Qceiling rating)))) true ++
    replicate (5 - Z.to_nat (Z.min 5 (Z.max 0 (Qceiling rating)))) false.
Proof.
  rewrite <- filled_prefix. unfold Stars.renderStars.
  rewrite <- list_fmap_compose. apply list_fmap_ext. intros _ i _. simpl.
  apply below_rating.
Qed.

(** X12. renderStars of the product page returns five stars, the first
    [ceil(rating)] of them filled, so that a fractional average shows one
    star more than on the card; an interactive star at position [k]
    (counted from 1) passes [k] to [onRate], and drawing the rating [k] it
    has passed fills exactly those [k] stars; a star that is not
    interactive has no click handler. *)
Theorem renderStars_detail (rating : Q) :
  (∀ interactive,
     Stars.filled <$> Stars.renderStars rating interactive =
       replicate (Z.to_nat (Z.min 5 (Z.max 0 (Qceiling rating)))) true ++
       replicate (5 - Z.to_nat (Z.min 5 (Z.max 0 (Qceiling rating)))) false) ∧
  Stars.onClick <$> Stars.renderStars rating true =
    [Some 1; Some 2; Some 3; Some 4; Some 5] ∧
  Stars.onClick <$> Stars.renderStars rating false = replicate 5 None ∧
  (∀ star k,
     star ∈ Stars.renderStars rating true → Stars.onClick star = Some k →
     Stars.filled <$> Stars.renderStars (inject_Z k) true =
       replicate (Z.to_nat k) true ++ replicate (5 - Z.to_nat k) false).
Proof.
  split; [intros; apply renderStars_filled |].
  split; [reflexivity |]. split; [reflexivity |].
  intros star k Hin Hclick. rewrite renderStars_filled, Qceiling_Z.
  assert (1 ≤ k ≤ 5) as Hk.
  { unfold Stars.renderStars in Hin. change (seqZ 0 5) with [0; 1; 2; 3; 4] in Hin.
    cbn [map] in Hin. repeat (apply elem_of_cons in Hin as [-> | Hin];
      [simpl in Hclick; injection Hclick as <-; lia |]).
    by apply elem_of_nil in Hin. }
  by replace (Z.min 5 (Z.max 0 k)) with k by lia.
Qed.

Lemma renderStars_detail_witness :
  Stars.filled <$> Stars.renderStars (inject_Z 3) true =
    [true; true; true; false; false].
Proof.
  destruct (renderStars_detail (7 # 2)) as (_ & _ & _ & Hclick).
  apply (Hclick {| Stars.filled := true; Stars.onClick := Some 3 |} 3);
    [| reflexivity].
  right. right. left.
Defined.

Example stars_of_three_and_a_half :
  Stars.renderStars_card (7 # 2) = [true; true; true; false; false] ∧
  Stars.filled <$> Stars.renderStars (7 # 2) false = [true; true; true; true; false].
Proof. split; reflexivity. Qed.

(** ** Vendor dashboard *)

Lemma updateStock_products_absent (prev : list Product) (productId : string)
    (newStock : Z) :
  Forall (λ product, product_id product ≠ productId) prev →
  Vendor.updateStock_products prev productId newStock = prev.
Proof.
  unfold Vendor.updateStock_products.
  induction 1 as [|p rest Hp _ IH]; [done |].
  cbn [map]. rewrite IH. apply String.eqb_neq in Hp. by rewrite Hp.
Qed.

Lemma updateStock_products_at (l1 l2 : list Product) (p : Product) (newStock : Z) :
  Forall (λ product, product_id product ≠ product_id p) (l1 ++ l2) →
  Vendor.updateStock_products (l1 ++ p :: l2) (product_id p) newStock =
    l1 ++ with_stock newStock p :: l2.
Proof.
  intros Hothers. apply Forall_app in Hothers as [H1 H2].
  pose proof (updateStock_products_absent l1 (product_id p) newStock H1) as E1.
  pose proof (updateStock_products_absent l2 (product_id p) newStock H2) as E2.
  unfold Vendor.updateStock_products in *.
  rewrite map_app. cbn [map]. rewrite E1, E2, String.eqb_refl. reflexivity.
Qed.

Lemma low_stock_count_app (l1 l2 : list Product) :
  Vendor.getLowStockCount (l1 ++ l2) =
    Vendor.getLowStockCount l1 + Vendor.getLowStockCount l2.
Proof.
  unfold Vendor.getLowStockCount. rewrite filter_app, length_app. lia.
Qed.

Lemma low_stock_count_cons (p : Product) (rest : list Product) :
  Vendor.getLowStockCount (p :: rest) =
    (if stock p <? 10 then 1 else 0) + Vendor.getLowStockCount rest.
Proof.
  unfold Vendor.getLowStockCount. rewrite filter_cons.
  destruct (decide (stock p < 10)) as [Hlow | Hhigh].
  - rewrite (proj2 (Z.ltb_lt _ _)) by done. simpl length. lia.
  - rewrite (proj2 (Z.ltb_ge _ _)) by lia. lia.
Qed.

(** X14. The low-stock count is never above the number of products, and a
    stock edit of a product whose id no other row carries changes it by
    that product alone: it leaves the count when the old stock was below
    10 and enters it when the new stock is. *)
Theorem getLowStockCount_edit (l1 l2 : list Product) (p : Product) (newStock : Z) :
  Forall (λ product, product_id product ≠ product_id p) (l1 ++ l2) →
  0 ≤ Vendor.getLowStockCount (l1 ++ p :: l2) ≤ Vendor.getTotalProducts (l1 ++ p :: l2) ∧
  Vendor.getLowStockCount
    (Vendor.updateStock_products (l1 ++ p :: l2) (product_id p) newStock) =
    Vendor.getLowStockCount (l1 ++ p :: l2)
    - (if stock p <? 10 then 1 else 0) + (if newStock <? 10 then 1 else 0).
Proof.
  intros Hothers. split.
  - unfold Vendor.getLowStockCount, Vendor.getTotalProducts.
    pose proof (length_filter (λ product : Product, stock product < 10) (l1 ++ p :: l2)).
    lia.
  - rewrite updateStock_products_at by done.
    rewrite !low_stock_count_app, !low_stock_count_cons. simpl. lia.
Qed.

Lemma getLowStockCount_edit_witness :
  Vendor.getLowStockCount (Vendor.updateStock_products [pear; apple] "A" 30) =
    Vendor.getLowStockCount [pear; apple] - 1 + 0.
Proof.
  apply (getLowStockCount_edit [pear] [] apple 30).
  repeat constructor. discriminate.
Defined.

(** ** Category list *)

Lemma set_add_all_spec (values seen : list string) :
  NoDup seen →
  NoDup (Catalog.set_add_all seen values) ∧
  (∀ c, c ∈ Catalog.set_add_all seen values ↔ c ∈ seen ∨ c ∈ values) ∧
  (NoDup (seen ++ values) → Catalog.set_add_all seen values = seen ++ values).
Proof.
  revert seen. induction values as [|value rest IH]; intros seen Hnd; simpl.
  - split; [done |]. split; [| by rewrite app_nil_r].
    intros c. split; [by left | intros [H | H]; [done | by apply elem_of_nil in H]].
  - case_bool_decide as Hseen.
    + destruct (IH seen Hnd) as (Hnd' & Hmem & Hid). split; [done |].
      split.
      * intros c. rewrite Hmem, elem_of_cons. split; [tauto |].
        intros [H | [-> | H]]; tauto.
      * intros Hall. exfalso. apply NoDup_app in Hall as (_ & Hdisj & _).
        apply (Hdisj value Hseen). left.
    + assert (NoDup (seen ++ [value])) as Hnd1.
      { apply NoDup_app. split; [done |]. split; [| apply NoDup_singleton].
        intros x Hx Hx'. apply list_elem_of_singleton in Hx'. by subst x. }
      destruct (IH (seen ++ [value]) Hnd1) as (Hnd' & Hmem & Hid).
      split; [done |]. split.
      * intros c. rewrite Hmem, elem_of_app, list_elem_of_singleton, elem_of_cons.
        tauto.
      * intros Hall. rewrite Hid; [by rewrite <- app_assoc |].
        by rewrite <- app_assoc.
Qed.

(** X15. The category list holds every category of the fetched rows and
    nothing else, each exactly once; rows whose categories are already
    distinct keep their order; a fetch without data gives the empty list. *)
Theorem uniqueCategories_spec (data : list string) :
  NoDup (Catalog.uniqueCategories (Some data)) ∧
  (∀ c, c ∈ Catalog.uniqueCategories (Some data) ↔ c ∈ data) ∧
  (NoDup data → Catalog.uniqueCategories (Some data) = data) ∧
  Catalog.uniqueCategories None = [].
Proof.
  unfold Catalog.uniqueCategories. simpl.
  destruct (set_add_all_spec data [] (NoDup_nil_2)) as (Hnd & Hmem & Hid).
  split; [done |]. split; [| split; [exact Hid | reflexivity]].
  intros c. rewrite Hmem. split; [| by right].
  intros [H | H]; [by apply elem_of_nil in H | done].
Qed.

Lemma uniqueCategories_spec_witness :
  Catalog.uniqueCategories (Some ["fruit"; "tools"]) = ["fruit"; "tools"].
Proof.
  apply (uniqueCategories_spec ["fruit"; "tools"]).
  apply NoDup_cons. split; [| apply NoDup_singleton].
  intros Hin. apply list_elem_of_singleton in Hin. discriminate.
Defined.

Example uniqueCategories_first_occurrence :
  Catalog.uniqueCategories (Some ["tools"; "fruit"; "tools"; "toys"; "fruit"]) =
    ["tools"; "fruit"; "toys"].
Proof. reflexivity. Qed.

(** ** Checkout when the store fails *)

(** A checkout whose order insertion and points update are accepted,
    whatever else fails. *)
Lemma handleSubmit_run (user : User) (cartItems : list CartItem) (w : World) :
  cartItems ≠ [] →
  faults w (InsertOrder (placed_order user cartItems)) = None →
  faults w (UpdateProfilePoints (user_id user)
              (default 0 (points_read user w) + Math_floor (getTotalPrice cartItems))) =
    None →
  Checkout.handleSubmit (Some user) cartItems w =
    (Normal tt,
     loop_finish user cartItems
       (snd (for_of cartItems Checkout.updateStock
               (loop_start user cartItems (points_read user w) w)))).
Proof.
  intros Hne Hfo Hfp. unfold Checkout.handleSubmit.
  replace (length cartItems =? 0)%nat with false
    by (destruct cartItems; [congruence | reflexivity]).
  pose proof (stock_loop_normal cartItems
                (loop_start user cartItems (points_read user w) w)) as Hloop.
  set (loop := for_of cartItems Checkout.updateStock) in *. clearbody loop.
  unfold loop_start, points_read, placed_order in *.
  run_handler. simpl. rewrite Hfo. simpl.
  destruct (faults w (SelectProfilePoints (user_id user))); simpl in *;
    rewrite Hfp; simpl;
    destruct (loop _) as [c3 w3]; simpl in Hloop;
    destruct Hloop as [-> _];
    unfold loop_finish, success_events; simpl;
    destruct (faults w3 (UpdateCartByUser (user_id user) [])); simpl;
    unfold add_ui, set_store, add_log; simpl; by rewrite <- !app_assoc.
Qed.

Lemma handleSubmit_run_frame (user : User) (cartItems : list CartItem) (w : World) :
  loop_frame (loop_start user cartItems (points_read user w) w)
    (snd (for_of cartItems Checkout.updateStock
            (loop_start user cartItems (points_read user w) w))).
Proof. apply stock_loop_normal. Qed.

(** A checkout whose order insertion the store rejects. *)
Lemma handleSubmit_order_rejected (user : User) (cartItems : list CartItem) (w : World)
    (e : PgError) :
  cartItems ≠ [] →
  faults w (InsertOrder (placed_order user cartItems)) = Some e →
  Checkout.handleSubmit (Some user) cartItems w =
    (Normal tt,
     {| store := store w; session := session w; faults := faults w; now := now w;
        log := log w ++ [InsertOrder (placed_order user cartItems)];
        ui := ui w ++ SetIsProcessing true ::
                catch_events "Error processing order:"
                             "Failed to process your order. Please try again." ++
                [SetIsProcessing false] |}).
Proof.
  intros Hne Hfo. unfold Checkout.handleSubmit.
  replace (length cartItems =? 0)%nat with false
    by (destruct cartItems; [congruence | reflexivity]).
  set (loop := for_of cartItems Checkout.updateStock). clearbody loop.
  unfold placed_order, catch_events in *. run_handler. simpl. rewrite Hfo. simpl.
  unfold add_ui, add_log. simpl. by rewrite <- !app_assoc.
Qed.

(** X16. When the store rejects the insertion of the order, the checkout
    stops there: no other request is made, the store is as before (no
    points, no stock change, cart kept), the error toast is shown and the
    processing flag is reset. *)
Theorem handleSubmit_insert_rejected (user : User) (cartItems : list CartItem)
    (w : World) (e : PgError) :
  cartItems ≠ [] →
  faults w (InsertOrder {| order_user_id := user_id user; order_products := cartItems;
                           total := getTotalPrice cartItems; status := pending |}) =
    Some e →
  ∃ w',
    Checkout.handleSubmit (Some user) cartItems w = (Normal tt, w') ∧
    store w' = store w ∧
    log w' = log w ++
      [ InsertOrder {| order_user_id := user_id user; order_products := cartItems;
                       total := getTotalPrice cartItems; status := pending |} ] ∧
    ui w' = ui w ++
      [ SetIsProcessing true;
        ConsoleError "Error processing order:";
        Toast "Error" "Failed to process your order. Please try again." true;
        SetIsProcessing false ].
Proof.
  intros Hne Hfo. eexists. split; [by eapply handleSubmit_order_rejected |].
  done.
Qed.

Lemma handleSubmit_insert_rejected_witness :
  ∃ w', Checkout.handleSubmit (Some alice) [apple_item 2]
          (signed_in 5 (fail_when (λ _, true))) = (Normal tt, w') ∧
        store w' = apple_store 5 ∧
        log w' = [ InsertOrder (placed_order alice [apple_item 2]) ].
Proof.
  destruct (handleSubmit_insert_rejected alice [apple_item 2]
              (signed_in 5 (fail_when (λ _, true)))
              {| code := "08006"; message := "connection failure" |})
    as (w' & Hrun & Hstore & Hlog & _).
  - discriminate.
  - reflexivity.
  - exists w'. split; [exact Hrun |]. split; [exact Hstore | exact Hlog].
Defined.

Lemma updateStock_log_any (item : CartItem) (w : World) :
  ∃ l, log (snd (Checkout.updateStock item w)) = log w ++ l.
Proof.
  unfold Checkout.updateStock. run_handler. simpl.
  destruct (faults w (SelectProductStock (id item))); [by eexists [_] |].
  destruct (products (store w) !! id item) as [p|]; simpl; [| by eexists [_]].
  destruct (faults w (UpdateProductStock _ _)); simpl;
    destruct (faults w (UpdateInventory _ _ _)); simpl;
    eexists [_; _; _]; by rewrite <- !app_assoc.
Qed.

(** The stock loop only adds to the log. *)
Lemma stock_loop_log_any (items : list CartItem) (w : World) :
  ∃ l, log (snd (for_of items Checkout.updateStock w)) = log w ++ l.
Proof.
  revert w. induction items as [|item rest IH]; intros w.
  - exists []. by rewrite app_nil_r.
  - rewrite for_of_cons by apply updateStock_normal.
    destruct (updateStock_log_any item w) as [l1 Hl1].
    destruct (IH (snd (Checkout.updateStock item w))) as [l2 Hl2].
    exists (l1 ++ l2). by rewrite Hl2, Hl1, <- app_assoc.
Qed.

(** X17. When the read of the profile's points fails but their update is
    accepted, the profile's balance is overwritten: it becomes the points
    of this order alone, whatever it was before. *)
Theorem handleSubmit_points_read_failed (user : User) (cartItems : list CartItem)
    (w : World) (e : PgError) :
  cartItems ≠ [] →
  faults w (InsertOrder {| order_user_id := user_id user; order_products := cartItems;
                           total := getTotalPrice cartItems; status := pending |}) =
    None →
  faults w (SelectProfilePoints (user_id user)) = Some e →
  (∀ points, faults w (UpdateProfilePoints (user_id user) points) = None) →
  ∃ w',
    Checkout.handleSubmit (Some user) cartItems w = (Normal tt, w') ∧
    loyalty_points <$> profiles (store w') !! user_id user =
      (λ _, Math_floor (getTotalPrice cartItems)) <$> profiles (store w) !! user_id user ∧
    UpdateProfilePoints (user_id user) (Math_floor (getTotalPrice cartItems)) ∈ log w'.
Proof.
  intros Hne Hfo Hfs Hfp. eexists.
  split; [by apply handleSubmit_run |].
  pose proof (handleSubmit_run_frame user cartItems w)
    as (_ & Hf3 & _ & _ & _ & _ & Hprof & _).
  pose proof (stock_loop_log_any cartItems
                (loop_start user cartItems (points_read user w) w)) as [l Hlog].
  unfold loop_finish. simpl log.
  split.
  - replace (profiles (store _)) with
      (profiles (store (snd (for_of cartItems Checkout.updateStock
                               (loop_start user cartItems (points_read user w) w))))).
    + rewrite Hprof. unfold points_read. rewrite Hfs. simpl.
      rewrite lookup_alter_eq. by destruct (profiles (store w) !! user_id user).
    + by destruct (faults _ (UpdateCartByUser _ _)).
  - rewrite Hlog. unfold points_read. rewrite Hfs. simpl. set_solver.
Qed.

Lemma handleSubmit_points_read_failed_witness :
  ∃ w', Checkout.handleSubmit (Some alice) [apple_item 2]
          (world_of (loyal_store 5 []) (Some alice) (fail_when is_points_read)) =
          (Normal tt, w') ∧
        loyalty_points <$> profiles (store w') !! "u" = Some 20.
Proof.
  destruct (handleSubmit_points_read_failed alice [apple_item 2]
              (world_of (loyal_store 5 []) (Some alice) (fail_when is_points_read))
              {| code := "08006"; message := "connection failure" |})
    as (w' & Hrun & Hpoints & _).
  - discriminate.
  - reflexivity.
  - reflexivity.
  - reflexivity.
  - exists w'. split; [exact Hrun |].
    etransitivity; [exact Hpoints |]. vm_compute. reflexivity.
Defined.

Lemma alter_absent {A} (f : A → A) (k : string) (m : gmap string A) :
  m !! k = None → alter f k m = m.
Proof.
  intros Hnone. apply map_eq. intros i. rewrite lookup_alter.
  case_decide; [subst i; by rewrite Hnone | done].
Qed.

(** X18. For a user without a profile row the checkout still succeeds and
    places the order, but the points are recorded nowhere: the update
    matches no row and no profile is created. *)
Theorem handleSubmit_missing_profile (user : User) (cartItems : list CartItem)
    (w : World) :
  cartItems ≠ [] →
  faults w = no_faults →
  profiles (store w) !! user_id user = None →
  ∃ w',
    Checkout.handleSubmit (Some user) cartItems w = (Normal tt, w') ∧
    profiles (store w') = profiles (store w) ∧
    orders (store w') =
      orders (store w) ++
        [ {| order_user_id := user_id user; order_products := cartItems;
             total := getTotalPrice cartItems; status := pending |} ] ∧
    ui w' = ui w ++
      [ SetIsProcessing true;
        Toast "Order placed successfully!"
              ("You earned " +:+ pretty (Math_floor (getTotalPrice cartItems)) +:+
               " loyalty points!") false;
        Navigate "/orders";
        SetIsProcessing false ].
Proof.
  intros Hne Hf Hnone.
  destruct (handleSubmit_no_faults_parts user cartItems w Hf Hne)
    as (w3 & w' & _ & Hrun & _ & _ & Hord & Hprof & _ & Hui).
  exists w'. split; [exact Hrun |]. rewrite Hprof, Hord, Hui.
  split; [by apply alter_absent | done].
Qed.

Lemma handleSubmit_missing_profile_witness :
  ∃ w', Checkout.handleSubmit (Some alice) [apple_item 2]
          (world_of (anonymous_store 5) (Some alice) no_faults) = (Normal tt, w') ∧
        profiles (store w') = ∅ ∧
        length (orders (store w')) = 1%nat.
Proof.
  destruct (handleSubmit_missing_profile alice [apple_item 2]
              (world_of (anonymous_store 5) (Some alice) no_faults))
    as (w' & Hrun & Hprofiles & Horders & _).
  - discriminate.
  - reflexivity.
  - reflexivity.
  - exists w'. split; [exact Hrun |]. rewrite Hprofiles, Horders.
    split; reflexivity.
Defined.

(** X19. The answer to the request that empties the cart is not looked at:
    when the store rejects it, and accepts the order and the points, the
    checkout still announces success and navigates to the orders, and the
    cart stays as it was, with the order placed. *)
Theorem handleSubmit_cart_clear_rejected (user : User) (cartItems : list CartItem)
    (w : World) (e : PgError) :
  cartItems ≠ [] →
  faults w (InsertOrder {| order_user_id := user_id user; order_products := cartItems;
                           total := getTotalPrice cartItems; status := pending |}) =
    None →
  (∀ points, faults w (UpdateProfilePoints (user_id user) points) = None) →
  faults w (UpdateCartByUser (user_id user) []) = Some e →
  ∃ w',
    Checkout.handleSubmit (Some user) cartItems w = (Normal tt, w') ∧
    carts (store w') = carts (store w) ∧
    orders (store w') =
      orders (store w) ++
        [ {| order_user_id := user_id user; order_products := cartItems;
             total := getTotalPrice cartItems; status := pending |} ] ∧
    ui w' = ui w ++
      [ SetIsProcessing true;
        Toast "Order placed successfully!"
              ("You earned " +:+ pretty (Math_floor (getTotalPrice cartItems)) +:+
               " loyalty points!") false;
        Navigate "/orders";
        SetIsProcessing false ].
Proof.
  intros Hne Hfo Hfp Hfc. eexists.
  split; [by apply handleSubmit_run |].
  pose proof (handleSubmit_run_frame user cartItems w)
    as (_ & Hf3 & _ & Hui & Hord & Hcarts & _).
  unfold loop_finish. simpl. rewrite Hf3. simpl. rewrite Hfc.
  rewrite Hcarts, Hord, Hui. simpl.
  split; [done |]. split; [done |]. by rewrite <- app_assoc.
Qed.

Lemma handleSubmit_cart_clear_rejected_witness :
  ∃ w', Checkout.handleSubmit (Some alice) [apple_item 2]
          (world_of (loyal_store 5 [apple_item 2]) (Some alice)
                    (fail_when is_cart_clear)) = (Normal tt, w') ∧
        carts (store w') !! "u" = Some (Some [apple_item 2]) ∧
        length (orders (store w')) = 1%nat.
Proof.
  destruct (handleSubmit_cart_clear_rejected alice [apple_item 2]
              (world_of (loyal_store 5 [apple_item 2]) (Some alice)
                        (fail_when is_cart_clear))
              {| code := "08006"; message := "connection failure" |})
    as (w' & Hrun & Hcarts & Horders & _).
  - discriminate.
  - reflexivity.
  - reflexivity.
  - reflexivity.
  - exists w'. split; [exact Hrun |]. rewrite Hcarts, Horders.
    split; [vm_compute |]; reflexivity.
Defined.

(** One iteration when the store rejects the update of the product row and
    accepts that of the inventory row. *)
Lemma updateStock_product_rejected (item : CartItem) (w : World) (p : Product)
    (e : PgError) :
  faults w (SelectProductStock (id item)) = None →
  (∀ s, faults w (UpdateProductStock (id item) s) = Some e) →
  (∀ s stamp, faults w (UpdateInventory (id item) s stamp) = None) →
  products (store w) !! id item = Some p →
  products (store (snd (Checkout.updateStock item w))) = products (store w) ∧
  inventory (store (snd (Checkout.updateStock item w))) !! id item =
    (λ _, {| inventory_stock := Z.max 0 (stock p - quantity item);
             last_updated := now w |}) <$> inventory (store w) !! id item.
Proof.
  intros Hfs Hfu Hfi Hp. unfold Checkout.updateStock. run_handler. simpl.
  rewrite Hfs, Hp. simpl. rewrite Hfu. simpl. rewrite Hfi. simpl.
  split; [done | by rewrite lookup_alter_eq].
Qed.

(** X20. The answers to the stock updates are not looked at either: when
    the store rejects the update of a product row and accepts that of its
    inventory row, the checkout announces success, the product keeps its
    stock and the inventory row carries the decremented one, so the two
    records of the same stock disagree. *)
Theorem handleSubmit_stock_update_rejected (user : User) (l1 l2 : list CartItem)
    (w : World) (item : CartItem) (p : Product) (e : PgError) :
  (∀ other, other ∈ l1 ++ l2 → id other ≠ id item) →
  products (store w) !! id item = Some p →
  faults w (InsertOrder {| order_user_id := user_id user;
                           order_products := l1 ++ item :: l2;
                           total := getTotalPrice (l1 ++ item :: l2);
                           status := pending |}) = None →
  (∀ points, faults w (UpdateProfilePoints (user_id user) points) = None) →
  faults w (SelectProductStock (id item)) = None →
  (∀ s, faults w (UpdateProductStock (id item) s) = Some e) →
  (∀ s stamp, faults w (UpdateInventory (id item) s stamp) = None) →
  ∃ w',
    Checkout.handleSubmit (Some user) (l1 ++ item :: l2) w = (Normal tt, w') ∧
    products (store w') !! id item = Some p ∧
    inventory_stock <$> inventory (store w') !! id item =
      (λ _, Z.max 0 (stock p - quantity item)) <$> inventory (store w) !! id item ∧
    Toast "Order placed successfully!"
          ("You earned " +:+ pretty (Math_floor (getTotalPrice (l1 ++ item :: l2))) +:+
           " loyalty points!") false ∈ ui w'.
Proof.
  intros Hother Hp Hfo Hfp Hfs Hfu Hfi.
  assert (l1 ++ item :: l2 ≠ []) as Hne by (by destruct l1).
  eexists. split; [by apply handleSubmit_run |].
  set (w0 := loop_start user (l1 ++ item :: l2) (points_read user w) w).
  assert (products (store
            (loop_finish user (l1 ++ item :: l2)
               (snd (for_of (l1 ++ item :: l2) Checkout.updateStock w0)))) =
          products (store (snd (for_of (l1 ++ item :: l2) Checkout.updateStock w0))) ∧
          inventory (store
            (loop_finish user (l1 ++ item :: l2)
               (snd (for_of (l1 ++ item :: l2) Checkout.updateStock w0)))) =
          inventory (store (snd (for_of (l1 ++ item :: l2) Checkout.updateStock w0))))
    as [-> ->].
  { unfold loop_finish. simpl. by destruct (faults _ (UpdateCartByUser _ _)). }
  split; [| split].
  - rewrite for_of_app, for_of_cons by (intros; apply updateStock_normal).
    destruct (stock_loop_normal l1 w0) as (_ & _ & Hf1 & _).
    destruct (stock_loop_other l1 w0 (id item)) as [Hp1 _].
    { intros x Hx. apply Hother, elem_of_app. by left. }
    set (w1 := snd (for_of l1 Checkout.updateStock w0)) in *.
    destruct (stock_loop_other l2 (snd (Checkout.updateStock item w1)) (id item))
      as [-> _].
    { intros x Hx. apply Hother, elem_of_app. by right. }
    destruct (updateStock_product_rejected item w1 p e) as [-> _];
      try (rewrite Hf1; simpl; done).
    + by rewrite Hp1.
    + by rewrite Hp1.
  - rewrite for_of_app, for_of_cons by (intros; apply updateStock_normal).
    destruct (stock_loop_normal l1 w0) as (_ & _ & Hf1 & Hnow1 & _).
    destruct (stock_loop_other l1 w0 (id item)) as [Hp1 Hi1].
    { intros x Hx. apply Hother, elem_of_app. by left. }
    set (w1 := snd (for_of l1 Checkout.updateStock w0)) in *.
    destruct (stock_loop_other l2 (snd (Checkout.updateStock item w1)) (id item))
      as [_ ->].
    { intros x Hx. apply Hother, elem_of_app. by right. }
    destruct (updateStock_product_rejected item w1 p e) as [_ ->];
      try (rewrite Hf1; simpl; done).
    + by rewrite Hp1.
    + rewrite Hi1. simpl. by destruct (inventory (store w) !! id item).
  - unfold loop_finish, success_events. simpl. set_solver.
Qed.

Lemma handleSubmit_stock_update_rejected_witness :
  ∃ w', Checkout.handleSubmit (Some alice) [apple_item 2]
          (signed_in 5 (fail_when is_product_update)) = (Normal tt, w') ∧
        stock <$> products (store w') !! "A" = Some 5 ∧
        inventory_stock <$> inventory (store w') !! "A" = Some 3.
Proof.
  destruct (handleSubmit_stock_update_rejected alice [] []
              (signed_in 5 (fail_when is_product_update)) (apple_item 2)
              (with_stock 5 apple)
              {| code := "08006"; message := "connection failure" |})
    as (w' & Hrun & Hproduct & Hinventory & _).
  - intros other Hin. by apply elem_of_nil in Hin.
  - vm_compute. reflexivity.
  - reflexivity.
  - reflexivity.
  - reflexivity.
  - reflexivity.
  - reflexivity.
  - exists w'. split; [exact Hrun |].
    simpl in Hproduct, Hinventory. rewrite Hproduct, Hinventory.
    split; vm_compute; reflexivity.
Defined.

(** ** Checkout under any failure pattern *)

Lemma handleSubmit_points_rejected (user : User) (cartItems : list CartItem) (w : World)
    (e : PgError) :
  cartItems ≠ [] →
  faults w (InsertOrder (placed_order user cartItems)) = None →
  faults w (UpdateProfilePoints (user_id user)
              (default 0 (points_read user w) + Math_floor (getTotalPrice cartItems))) =
    Some e →
  Checkout.handleSubmit (Some user) cartItems w =
    (Normal tt, points_rejected user cartItems w).
Proof.
  intros Hne Hfo Hfp. unfold Checkout.handleSubmit.
  replace (length cartItems =? 0)%nat with false
    by (destruct cartItems; [congruence | reflexivity]).
  set (loop := for_of cartItems Checkout.updateStock). clearbody loop.
  unfold points_rejected, points_read, placed_order in *.
  run_handler. simpl. rewrite Hfo. simpl.
  destruct (faults w (SelectProfilePoints (user_id user))); simpl in *;
    rewrite Hfp; simpl; unfold add_ui, set_store, add_log; simpl;
    by rewrite <- !app_assoc.
Qed.

(** The four ways a checkout can go. *)
Lemma handleSubmit_outcomes (user : option User) (cartItems : list CartItem) (w : World) :
  Checkout.handleSubmit user cartItems w = (Normal tt, w) ∨
  ∃ u, user = Some u ∧
    (Checkout.handleSubmit user cartItems w = (Normal tt, order_rejected u cartItems w) ∨
     Checkout.handleSubmit user cartItems w = (Normal tt, points_rejected u cartItems w) ∨
     Checkout.handleSubmit user cartItems w =
       (Normal tt,
        loop_finish u cartItems
          (snd (for_of cartItems Checkout.updateStock
                  (loop_start u cartItems (points_read u w) w))))).
Proof.
  destruct user as [u|]; [| by left].
  destruct cartItems as [|item rest]; [by left |].
  right. exists u. split; [done |].
  destruct (faults w (InsertOrder (placed_order u (item :: rest)))) as [e|] eqn:Hfo.
  - left. rewrite (handleSubmit_order_rejected u (item :: rest) w e); done.
  - destruct (faults w (UpdateProfilePoints (user_id u)
                (default 0 (points_read u w) + Math_floor (getTotalPrice (item :: rest)))))
      as [e|] eqn:Hfp.
    + right. left. by apply (handleSubmit_points_rejected u (item :: rest) w e).
    + right. right. by apply handleSubmit_run.
Qed.

Lemma loop_finish_tables (user : User) (cartItems : list CartItem) (w3 : World) :
  products (store (loop_finish user cartItems w3)) = products (store w3) ∧
  inventory (store (loop_finish user cartItems w3)) = inventory (store w3) ∧
  orders (store (loop_finish user cartItems w3)) = orders (store w3).
Proof.
  unfold loop_finish. simpl. by destruct (faults w3 (UpdateCartByUser _ _)).
Qed.

(** What an iteration can do to a product row. *)
Lemma updateStock_rows (item : CartItem) (w : World) (pid : string) :
  products (store (snd (Checkout.updateStock item w))) !! pid =
    products (store w) !! pid ∨
  ∃ p newStock,
    products (store w) !! pid = Some p ∧ 0 ≤ newStock ∧
    products (store (snd (Checkout.updateStock item w))) !! pid =
      Some (with_stock newStock p).
Proof.
  unfold Checkout.updateStock. run_handler. simpl.
  destruct (faults w (SelectProductStock (id item))); [by left |].
  destruct (products (store w) !! id item) as [p|] eqn:Hp; simpl; [| by left].
  destruct (faults w (UpdateProductStock _ _)); simpl;
    destruct (faults w (UpdateInventory _ _ _)); simpl; try by left.
  - destruct (decide (id item = pid)) as [<- | Hne].
    + right. exists p, (Z.max 0 (stock p - quantity item)).
      split; [done |]. split; [lia |]. by rewrite lookup_alter_eq, Hp.
    + left. by rewrite lookup_alter_ne.
  - destruct (decide (id item = pid)) as [<- | Hne].
    + right. exists p, (Z.max 0 (stock p - quantity item)).
      split; [done |]. split; [lia |]. by rewrite lookup_alter_eq, Hp.
    + left. by rewrite lookup_alter_ne.
Qed.

Lemma stock_loop_rows (items : list CartItem) (w : World) (pid : string) :
  products (store (snd (for_of items Checkout.updateStock w))) !! pid =
    products (store w) !! pid ∨
  ∃ p newStock,
    products (store w) !! pid = Some p ∧ 0 ≤ newStock ∧
    products (store (snd (for_of items Checkout.updateStock w))) !! pid =
      Some (with_stock newStock p).
Proof.
  revert w. induction items as [|item rest IH]; intros w; [by left |].
  rewrite for_of_cons by apply updateStock_normal.
  destruct (IH (snd (Checkout.updateStock item w)))
    as [-> | (p1 & s1 & Hp1 & Hs1 & ->)].
  - apply updateStock_rows.
  - right. destruct (updateStock_rows item w pid) as [Hsame | (p & s & Hp & _ & Hp')].
    + exists p1, s1. by rewrite <- Hsame.
    + exists p, s1. split; [done |]. split; [done |].
      rewrite Hp' in Hp1. injection Hp1 as <-. reflexivity.
Qed.

(** X21. Whatever the store fails, a checkout never creates or deletes a
    product row and never touches a product's name, price, image or
    category: a row is as before, or differs in its stock alone, and then
    the stock is not negative. *)
Theorem handleSubmit_product_rows (user : option User) (cartItems : list CartItem)
    (w : World) (pid : string) :
  products (store (snd (Checkout.handleSubmit user cartItems w))) !! pid =
    products (store w) !! pid ∨
  ∃ p newStock,
    products (store w) !! pid = Some p ∧ 0 ≤ newStock ∧
    products (store (snd (Checkout.handleSubmit user cartItems w))) !! pid =
      Some {| product_id := product_id p; product_name := product_name p;
              product_price := product_price p; product_image := product_image p;
              stock := newStock; category := category p |}.
Proof.
  destruct (handleSubmit_outcomes user cartItems w)
    as [-> | (u & _ & [-> | [-> | ->]])]; try by left.
  cbn [snd]. destruct (loop_finish_tables u cartItems
    (snd (for_of cartItems Checkout.updateStock
            (loop_start u cartItems (points_read u w) w)))) as (-> & _ & _).
  apply (stock_loop_rows cartItems (loop_start u cartItems (points_read u w) w) pid).
Qed.

(** X22. Whatever the store fails, a checkout leaves the existing orders
    as they are: the orders afterwards are the ones before, followed by at
    most the one order of the cart, with status [pending]. *)
Theorem handleSubmit_orders_append_only (user : option User)
    (cartItems : list CartItem) (w : World) :
  orders (store (snd (Checkout.handleSubmit user cartItems w))) = orders (store w) ∨
  ∃ u, user = Some u ∧
    orders (store (snd (Checkout.handleSubmit user cartItems w))) =
      orders (store w) ++
        [ {| order_user_id := user_id u; order_products := cartItems;
             total := getTotalPrice cartItems; status := pending |} ].
Proof.
  destruct (handleSubmit_outcomes user cartItems w)
    as [-> | (u & Hu & [-> | [-> | ->]])]; try by left.
  - right. by exists u.
  - right. exists u. split; [done |]. cbn [snd].
    destruct (loop_finish_tables u cartItems
      (snd (for_of cartItems Checkout.updateStock
              (loop_start u cartItems (points_read u w) w)))) as (_ & _ & ->).
    by destruct (handleSubmit_run_frame u cartItems w) as (_ & _ & _ & _ & -> & _).
Qed.

(** X24. Whatever its inputs and whatever the store fails, handleSubmit
    catches every error: it completes normally, and either it has done
    nothing at all (no user, or an empty cart) or it has set the processing
    flag first and reset it last. *)
Theorem handleSubmit_never_throws (user : option User) (cartItems : list CartItem)
    (w : World) :
  fst (Checkout.handleSubmit user cartItems w) = Normal tt ∧
  (snd (Checkout.handleSubmit user cartItems w) = w ∨
   ∃ events,
     ui (snd (Checkout.handleSubmit user cartItems w)) =
       ui w ++ SetIsProcessing true :: events ++ [SetIsProcessing false]).
Proof.
  destruct (handleSubmit_outcomes user cartItems w)
    as [-> | (u & _ & [-> | [-> | ->]])]; (split; [reflexivity |]).
  - by left.
  - right. by eexists.
  - right. by eexists.
  - right. cbn [snd]. unfold loop_finish. cbn [ui].
    destruct (handleSubmit_run_frame u cartItems w) as (_ & _ & _ & -> & _).
    simpl. eexists [_; _]. unfold success_events. by rewrite <- app_assoc.
Qed.

(** ** Repeated products in a checkout *)

Lemma with_stock_same (p : Product) : with_stock (stock p) p = p.
Proof. by destruct p. Qed.

Lemma updateStock_fold_step (item : CartItem) (w : World) (pid : string) :
  faults w = no_faults →
  products (store (snd (Checkout.updateStock item w))) !! pid =
    (λ p, with_stock (if String.eqb (id item) pid
                      then Z.max 0 (stock p - quantity item) else stock p) p) <$>
      products (store w) !! pid.
Proof.
  intros Hf. destruct (decide (id item = pid)) as [<- | Hne].
  - rewrite String.eqb_refl.
    destruct (products (store w) !! id item) as [p|] eqn:Hp.
    + by destruct (updateStock_present item w p Hf Hp) as [-> _].
    + destruct (updateStock_missing item w Hp) as [-> _]. by rewrite Hp.
  - destruct (updateStock_other item w pid Hne) as [-> _].
    apply String.eqb_neq in Hne. rewrite Hne.
    destruct (products (store w) !! pid) as [p|]; simpl; [| done].
    by rewrite with_stock_same.
Qed.

Lemma stock_loop_fold (items : list CartItem) (w : World) (pid : string) :
  faults w = no_faults →
  products (store (snd (for_of items Checkout.updateStock w))) !! pid =
    (λ p, with_stock (stock_after pid items (stock p)) p) <$>
      products (store w) !! pid.
Proof.
  revert w. induction items as [|item rest IH]; intros w Hf.
  - simpl. destruct (products (store w) !! pid) as [p|]; simpl; [| done].
    by rewrite with_stock_same.
  - rewrite for_of_cons by apply updateStock_normal.
    pose proof (updateStock_frame item w) as (_ & Hf1 & _).
    rewrite IH by congruence. rewrite updateStock_fold_step by done.
    destruct (products (store w) !! pid) as [p|]; simpl; [| done].
    unfold stock_after. simpl. by destruct p.
Qed.

Lemma getTotalItems_nonneg (items : list CartItem) :
  Forall (λ item, 0 ≤ quantity item) items → 0 ≤ CartSummary.getTotalItems items.
Proof.
  induction 1 as [|item rest Hitem _ IH]; [done |].
  rewrite getTotalItems_cons. lia.
Qed.

Lemma stock_after_total (pid : string) (items : list CartItem) (stock0 : Z) :
  0 ≤ stock0 →
  Forall (λ item, 0 ≤ quantity item) items →
  stock_after pid items stock0 =
    Z.max 0 (stock0 - CartSummary.getTotalItems (filter (λ item, id item = pid) items)).
Proof.
  intros Hstock Hall. revert stock0 Hstock.
  induction Hall as [|item rest Hitem Hrest IH]; intros stock0 Hstock.
  - unfold stock_after, CartSummary.getTotalItems. rewrite filter_nil.
    cbn [fold_left]. lia.
  - assert (0 ≤ CartSummary.getTotalItems (filter (λ item, id item = pid) rest)) as Hsum.
    { apply getTotalItems_nonneg. apply Forall_forall. intros x Hx.
      apply list_elem_of_filter in Hx as [_ Hx].
      rewrite Forall_forall in Hrest. by apply Hrest. }
    unfold stock_after in *. cbn [fold_left]. rewrite filter_cons.
    destruct (decide (id item = pid)) as [Hid | Hid].
    + apply String.eqb_eq in Hid. rewrite Hid.
      rewrite IH by lia. rewrite getTotalItems_cons. lia.
    + apply String.eqb_neq in Hid. rewrite Hid. by rewrite IH.
Qed.

(** X23. On a store that answers every request, several lines of a cart
    that carry the same product id decrement its stock one after the
    other: with quantities that are not negative, a product in stock ends
    with its stock less the quantities of all its lines together, clamped
    at zero. *)
Theorem handleSubmit_repeated_lines (user : User) (cartItems : list CartItem)
    (w : World) (pid : string) (p : Product) :
  faults w = no_faults →
  cartItems ≠ [] →
  Forall (λ item, 0 ≤ quantity item) cartItems →
  products (store w) !! pid = Some p →
  0 ≤ stock p →
  products (store (snd (Checkout.handleSubmit (Some user) cartItems w))) !! pid =
    Some {| product_id := product_id p; product_name := product_name p;
            product_price := product_price p; product_image := product_image p;
            stock := Z.max 0 (stock p -
                              CartSummary.getTotalItems
                                (filter (λ item, id item = pid) cartItems));
            category := category p |}.
Proof.
  intros Hf Hne Hall Hp Hstock. rewrite handleSubmit_no_faults by done. cbn [snd].
  unfold checkout_end. cbn [store products with_carts].
  rewrite stock_loop_fold by done.
  change (products (store (checkout_begin user cartItems w))) with (products (store w)).
  rewrite Hp. simpl. by rewrite stock_after_total.
Qed.

Lemma handleSubmit_repeated_lines_witness :
  stock <$> products (store (snd (Checkout.handleSubmit (Some alice)
                                    [apple_item 2; pear_item; apple_item 1]
                                    (signed_in 5 no_faults))))
            !! "A" = Some 2.
Proof.
  rewrite (handleSubmit_repeated_lines alice [apple_item 2; pear_item; apple_item 1]
             (signed_in 5 no_faults) "A" (with_stock 5 apple)).
  - reflexivity.
  - reflexivity.
  - discriminate.
  - repeat constructor; simpl; lia.
  - vm_compute. reflexivity.
  - simpl. lia.
Defined.

(** ** Adding to the cart *)

(** X25. On a store that answers every request, the add-to-cart handlers
    of the product card, of the product page and of the wishlist page all
    leave in the store the merge of the product into the user's cart (into
    an empty, newly created cart when the user had none, or when the stored
    value is not a list) and announce "Added to cart"; the card also calls
    [onAddToCart] and resets its loading flag. *)
Theorem handleAddToCart_stores_merge (user : User) (product : Product) (w : World) :
  faults w = no_faults →
  session w = Some user →
  let merged :=
    updatedProducts (match carts (store w) !! user_id user with
                     | Some (Some existingProducts) => existingProducts
                     | _ => []
                     end) product in
  let added :=
    Toast "Added to cart" (product_name product +:+ " has been added to your cart")
          false in
  (∃ w', ProductCard.handleAddToCart product w = (Normal tt, w') ∧
         carts (store w') !! user_id user = Some (Some merged) ∧
         ui w' = ui w ++ [ SetIsLoading true; added; Call "onAddToCart";
                           SetIsLoading false ]) ∧
  (∃ w', ProductDetail.handleAddToCart product w = (Normal tt, w') ∧
         carts (store w') !! user_id user = Some (Some merged) ∧
         ui w' = ui w ++ [ added ]) ∧
  (∃ w', Wishlist.addToCart (Some user) product w = (Normal tt, w') ∧
         carts (store w') !! user_id user = Some (Some merged) ∧
         ui w' = ui w ++ [ added ]).
Proof.
  intros Hf Hs merged added. subst merged added. split; [| split].
  - destruct (addProductToCart_stores_merge user product
                (add_ui (SetIsLoading true) w) Hf) as (w1 & Hrun & Hui & Hcart).
    unfold ProductCard.handleAddToCart. run_handler. simpl. rewrite Hs. simpl.
    rewrite Hrun. simpl. eexists. split; [reflexivity |]. simpl.
    split; [exact Hcart |]. rewrite Hui. simpl. by rewrite <- !app_assoc.
  - destruct (addProductToCart_stores_merge user product w Hf)
      as (w1 & Hrun & Hui & Hcart).
    unfold ProductDetail.handleAddToCart. run_handler. rewrite Hs. simpl.
    rewrite Hrun. simpl. eexists. split; [reflexivity |]. simpl.
    split; [exact Hcart |]. by rewrite Hui.
  - destruct (addProductToCart_stores_merge user product w Hf)
      as (w1 & Hrun & Hui & Hcart).
    unfold Wishlist.addToCart. run_handler.
    rewrite Hrun. simpl. eexists. split; [reflexivity |]. simpl.
    split; [exact Hcart |]. by rewrite Hui.
Qed.

Lemma handleAddToCart_stores_merge_witness :
  ∃ w', ProductCard.handleAddToCart apple
          (world_of (loyal_store 5 [pear_item; apple_item 1]) (Some alice) no_faults) =
          (Normal tt, w') ∧
        carts (store w') !! "u" = Some (Some [pear_item; apple_item 2]).
Proof.
  destruct (handleAddToCart_stores_merge alice apple
              (world_of (loyal_store 5 [pear_item; apple_item 1]) (Some alice) no_faults))
    as ((w' & Hrun & Hcart & _) & _); [reflexivity | reflexivity |].
  exists w'. split; [exact Hrun |]. etransitivity; [exact Hcart |].
  vm_compute. reflexivity.
Defined.

(** X26. The product card's add-to-cart catches a store failure: when the
    store rejects the creation of the missing cart, the cart's update is
    not attempted; when it rejects the update of an existing cart, the cart
    keeps its items; either way the store is as before, the error toast is
    shown in place of "Added to cart", [onAddToCart] is not called and the
    loading flag is reset. *)
Theorem handleAddToCart_failure (user : User) (product : Product) (w : World)
    (e : PgError) :
  session w = Some user →
  faults w (SelectCart (user_id user)) = None →
  let failure :=
    [ SetIsLoading true; ConsoleError "Error adding to cart:";
      Toast "Error" "Failed to add item to cart" true; SetIsLoading false ] in
  (carts (store w) !! user_id user = None →
   faults w (InsertCart (user_id user) []) = Some e →
   ∃ w', ProductCard.handleAddToCart product w = (Normal tt, w') ∧
         store w' = store w ∧
         log w' = log w ++ [ SelectCart (user_id user); InsertCart (user_id user) [] ] ∧
         ui w' = ui w ++ failure) ∧
  (∀ cart, carts (store w) !! user_id user = Some cart →
   (∀ items, faults w (UpdateCartById (user_id user) items) = Some e) →
   ∃ w', ProductCard.handleAddToCart product w = (Normal tt, w') ∧
         store w' = store w ∧
         ui w' = ui w ++ failure).
Proof.
  intros Hs Hfs failure. subst failure.
  unfold ProductCard.handleAddToCart, addProductToCart. run_handler. simpl.
  rewrite Hs. simpl. rewrite Hfs. split.
  - intros Hnone Hfi. rewrite Hnone. simpl. rewrite Hfi. simpl.
    eexists. split; [reflexivity |]. simpl.
    split; [done |]. split; by rewrite <- !app_assoc.
  - intros cart Hcart Hfu. rewrite Hcart. simpl. rewrite Hfu. simpl.
    eexists. split; [reflexivity |]. simpl.
    split; [done |]. by rewrite <- !app_assoc.
Qed.

Lemma handleAddToCart_failure_witness :
  ∃ w', ProductCard.handleAddToCart apple
          (world_of (loyal_store 5 [pear_item]) (Some alice) (fail_when is_cart_update)) =
          (Normal tt, w') ∧
        store w' = loyal_store 5 [pear_item] ∧
        ui w' = [ SetIsLoading true; ConsoleError "Error adding to cart:";
                  Toast "Error" "Failed to add item to cart" true; SetIsLoading false ].
Proof.
  destruct (handleAddToCart_failure alice apple
              (world_of (loyal_store 5 [pear_item]) (Some alice)
                        (fail_when is_cart_update))
              {| code := "08006"; message := "connection failure" |})
    as [_ Hupdate]; [reflexivity | reflexivity |].
  apply (Hupdate (Some [pear_item])); [vm_compute |]; reflexivity.
Defined.

(** ** Submitting a review *)

Lemma trimStart_spec (s : utf16) :
  ∃ before, s = before ++ trimStart s ∧
            Forall (λ c, is_white_space c = true) before ∧
            ∀ c, head (trimStart s) = Some c → is_white_space c = false.
Proof.
  induction s as [|c s (before & Hs & Hwhite & Hhead)].
  - exists []. by repeat split.
  - simpl. destruct (is_white_space c) eqn:Hc.
    + exists (c :: before). split; [simpl; congruence |].
      split; [by constructor | exact Hhead].
    + exists []. split; [done |]. split; [constructor |].
      intros c' [= <-]. exact Hc.
Qed.

(** What [trim] returns: the string without the white space at its two
    ends. *)
Lemma trim_spec (s : utf16) :
  ∃ before after,
    s = before ++ trim s ++ after ∧
    Forall (λ c, is_white_space c = true) before ∧
    Forall (λ c, is_white_space c = true) after ∧
    (∀ c, head (trim s) = Some c → is_white_space c = false) ∧
    (∀ c, last (trim s) = Some c → is_white_space c = false).
Proof.
  unfold trim.
  destruct (trimStart_spec s) as (before & Hs & Hbefore & Hhead).
  destruct (trimStart_spec (rev (trimStart s))) as (retfa & Hrev & Hafter & Hlast).
  set (t := trimStart s) in *. set (u := trimStart (rev t)) in *.
  assert (t = rev u ++ rev retfa) as Ht.
  { rewrite <- (rev_involutive t), Hrev, rev_app_distr. reflexivity. }
  exists before, (rev retfa). split; [by rewrite <- Ht |].
  split; [exact Hbefore |]. split; [| split].
  - apply Forall_forall. intros c Hc. rewrite Forall_forall in Hafter.
    apply Hafter. apply list_elem_of_In. apply in_rev. by apply list_elem_of_In.
  - intros c Hc. apply Hhead. rewrite Ht.
    destruct (rev u) as [|c' r]; [done |]. exact Hc.
  - intros c Hc. apply Hlast. destruct u as [|c' u']; [done |].
    simpl in Hc. rewrite last_snoc in Hc. exact Hc.
Qed.

(** X27. For a signed-in user, a review the store accepts is appended with
    the comment trimmed (the white space of ECMAScript, no-break and other
    Unicode spaces included, is taken from its two ends and from nowhere
    else), the form is reset to an empty comment and rating 5 and the
    reviews are fetched again; a review the store rejects changes nothing
    in the store, shows the error toast and leaves the form as it is; both
    ways the submitting flag is set first and reset last. *)
Theorem handleSubmitReview_outcome (user : User) (productId : string) (newRating : Z)
    (newComment : utf16) (w : World) :
  session w = Some user →
  let review := {| review_product_id := productId; review_user_id := user_id user;
                   rating := newRating; comment := trim newComment |} in
  (∃ before after,
     newComment = before ++ comment review ++ after ∧
     Forall (λ c, is_white_space c = true) before ∧
     Forall (λ c, is_white_space c = true) after ∧
     (∀ c, head (comment review) = Some c → is_white_space c = false) ∧
     (∀ c, last (comment review) = Some c → is_white_space c = false)) ∧
  (faults w (InsertReview review) = None →
   ∃ w', ProductDetail.handleSubmitReview productId newRating newComment w =
           (Normal tt, w') ∧
         reviews (store w') = reviews (store w) ++ [review] ∧
         ui w' = ui w ++
           [ SetIsSubmittingReview true;
             Toast "Review submitted" "Thank you for your review!" false;
             SetNewComment []; SetNewRating 5; Call "fetchReviews";
             SetIsSubmittingReview false ]) ∧
  (∀ e, faults w (InsertReview review) = Some e →
   ∃ w', ProductDetail.handleSubmitReview productId newRating newComment w =
           (Normal tt, w') ∧
         store w' = store w ∧
         ui w' = ui w ++
           [ SetIsSubmittingReview true;
             ConsoleError "Error submitting review:";
             Toast "Error" "Failed to submit review" true;
             SetIsSubmittingReview false ]).
Proof.
  intros Hs review. subst review. split; [apply trim_spec |].
  unfold ProductDetail.handleSubmitReview. run_handler. simpl. rewrite Hs. simpl.
  split.
  - intros Hf. rewrite Hf. simpl. eexists. split; [reflexivity |]. simpl.
    split; [done | by rewrite <- !app_assoc].
  - intros e Hf. rewrite Hf. simpl. eexists. split; [reflexivity |]. simpl.
    split; [done | by rewrite <- !app_assoc].
Qed.

Lemma handleSubmitReview_outcome_witness :
  ∃ w', ProductDetail.handleSubmitReview "A" 4 padded_comment
          (signed_in 5 no_faults) = (Normal tt, w') ∧
        reviews (store w') =
          [ {| review_product_id := "A"; review_user_id := "u"; rating := 4;
               comment := code_units "fine" |} ].
Proof.
  destruct (handleSubmitReview_outcome alice "A" 4 padded_comment
              (signed_in 5 no_faults)) as (_ & Haccepted & _); [reflexivity |].
  destruct Haccepted as (w' & Hrun & Hreviews & _); [reflexivity |].
  exists w'. split; [exact Hrun |]. rewrite Hreviews. reflexivity.
Defined.

(** * The order finalizer, its effects on the store *)

Lemma stock_answered_no_faults (w : World) : faults w = no_faults → stock_answered w.
Proof. intros Hf r _. by rewrite Hf. Qed.

Lemma updateStock_answered (item : CartItem) (w : World) (p : Product) :
  stock_answered w →
  products (store w) !! id item = Some p →
  products (store (snd (Checkout.updateStock item w))) !! id item =
    Some (with_stock (Z.max 0 (stock p - quantity item)) p) ∧
  inventory (store (snd (Checkout.updateStock item w))) !! id item =
    (λ _, {| inventory_stock := Z.max 0 (stock p - quantity item);
             last_updated := now w |}) <$> inventory (store w) !! id item.
Proof.
  intros Ha Hp. unfold Checkout.updateStock. run_handler. simpl.
  rewrite (Ha (SelectProductStock (id item))) by done. rewrite Hp. simpl.
  rewrite (Ha (UpdateProductStock _ _)) by done. simpl.
  rewrite (Ha (UpdateInventory _ _ _)) by done. simpl.
  by rewrite !lookup_alter_eq, Hp.
Qed.

Lemma stock_after_absent (pid : string) (items : list CartItem) (stock0 : Z) :
  pid ∉ id <$> items → stock_after pid items stock0 = stock0.
Proof.
  unfold stock_after. revert stock0.
  induction items as [|item rest IH]; intros stock0 Habsent; [done |].
  rewrite fmap_cons in Habsent. apply not_elem_of_cons in Habsent as [Hne Hrest].
  cbn [fold_left]. replace (String.eqb (id item) pid) with false.
  - by apply IH.
  - symmetry. apply String.eqb_neq. congruence.
Qed.

(** The two rows of a product after the stock loop, on a store that answers
    the loop's requests. *)
Lemma stock_loop_tables (items : list CartItem) (w : World) (pid : string)
    (p : Product) :
  stock_answered w →
  products (store w) !! pid = Some p →
  products (store (snd (for_of items Checkout.updateStock w))) !! pid =
    Some (with_stock (stock_after pid items (stock p)) p) ∧
  inventory (store (snd (for_of items Checkout.updateStock w))) !! pid =
    if bool_decide (pid ∈ id <$> items)
    then (λ _, {| inventory_stock := stock_after pid items (stock p);
                  last_updated := now w |}) <$> inventory (store w) !! pid
    else inventory (store w) !! pid.
Proof.
  revert w p. induction items as [|item rest IH]; intros w p Ha Hp.
  - simpl. rewrite Hp. unfold stock_after. simpl. by rewrite with_stock_same.
  - rewrite for_of_cons by apply updateStock_normal.
    pose proof (updateStock_frame item w) as (_ & Hf1 & Hnow1 & _).
    assert (stock_answered (snd (Checkout.updateStock item w))) as Ha1.
    { intros r Hr. rewrite Hf1. by apply Ha. }
    destruct (decide (id item = pid)) as [<- | Hne].
    + destruct (updateStock_answered item w p Ha Hp) as [Hp1 Hi1].
      destruct (IH _ _ Ha1 Hp1) as [-> ->]. rewrite Hnow1, Hi1.
      assert (stock_after (id item) (item :: rest) (stock p) =
              stock_after (id item) rest (Z.max 0 (stock p - quantity item))) as ->.
      { unfold stock_after. cbn [fold_left]. by rewrite String.eqb_refl. }
      split; [by destruct p |].
      rewrite (bool_decide_eq_true_2 (id item ∈ id <$> item :: rest)) by left.
      case_bool_decide as Hin.
      * simpl. by destruct (inventory (store w) !! id item).
      * simpl. by rewrite stock_after_absent.
    + destruct (updateStock_other item w pid Hne) as [Hp1 Hi1].
      rewrite <- Hp1 in Hp. destruct (IH _ _ Ha1 Hp) as [-> ->].
      rewrite Hnow1, Hi1.
      assert (stock_after pid (item :: rest) (stock p) = stock_after pid rest (stock p))
        as ->.
      { unfold stock_after. cbn [fold_left].
        apply String.eqb_neq in Hne. by rewrite Hne. }
      split; [done |].
      assert (bool_decide (pid ∈ id <$> item :: rest) = bool_decide (pid ∈ id <$> rest))
        as ->; [| done].
      apply bool_decide_ext. rewrite fmap_cons, elem_of_cons. split; [| by right].
      intros [Heq | Hin]; [congruence | done].
Qed.

(** What the requests of the loop do not contain for a product without a
    row, and what they contain for every line. *)
Lemma stock_requests_absent (present : gset string) (items : list CartItem)
    (l : list Request) (pid : string) :
  stock_requests present items l →
  pid ∉ present →
  ∀ s stamp, (UpdateProductStock pid s ∉ l) ∧ (UpdateInventory pid s stamp ∉ l).
Proof.
  induction 1 as [|item rest l Hitem _ IH|item rest l s0 t0 Hitem _ _ IH];
    intros Habsent s stamp.
  - split; apply not_elem_of_nil.
  - destruct (IH Habsent s stamp) as [H1 H2].
    split; (apply not_elem_of_cons; split; [discriminate | done]).
  - destruct (IH Habsent s stamp) as [H1 H2].
    assert (id item ≠ pid) as Hne by (intros <-; contradiction).
    split; repeat (apply not_elem_of_cons; split; [congruence |]); done.
Qed.

Lemma stock_requests_select (present : gset string) (items : list CartItem)
    (l : list Request) (item : CartItem) :
  stock_requests present items l → item ∈ items → SelectProductStock (id item) ∈ l.
Proof.
  induction 1 as [|x rest l Hx _ IH|x rest l s0 t0 Hx _ _ IH]; intros Hin.
  - by apply elem_of_nil in Hin.
  - apply elem_of_cons in Hin as [-> | Hin]; [left | right; by apply IH].
  - apply elem_of_cons in Hin as [-> | Hin]; [left |].
    right. right. right. by apply IH.
Qed.

(** The effects of a checkout whose requests are answered, the one that
    empties the cart apart. *)
Lemma handleSubmit_effects (user : User) (cartItems : list CartItem) (w : World) :
  cartItems ≠ [] →
  faults w (InsertOrder (placed_order user cartItems)) = None →
  faults w (SelectProfilePoints (user_id user)) = None →
  (∀ points, faults w (UpdateProfilePoints (user_id user) points) = None) →
  stock_answered w →
  ∃ w' stockRequests,
    Checkout.handleSubmit (Some user) cartItems w = (Normal tt, w') ∧
    log w' = log w ++
      [ InsertOrder (placed_order user cartItems);
        SelectProfilePoints (user_id user);
        UpdateProfilePoints (user_id user) (new_points user cartItems w) ] ++
      stockRequests ++ [ UpdateCartByUser (user_id user) [] ] ∧
    (faults w = no_faults →
     stock_requests (dom (products (store w))) cartItems stockRequests) ∧
    orders (store w') = orders (store w) ++ [placed_order user cartItems] ∧
    profiles (store w') =
      alter (with_points (new_points user cartItems w)) (user_id user)
            (profiles (store w)) ∧
    (∀ pid, products (store w') !! pid =
              (λ p, with_stock (stock_after pid cartItems (stock p)) p) <$>
                products (store w) !! pid) ∧
    (∀ pid p, products (store w) !! pid = Some p →
              inventory (store w') !! pid =
                if bool_decide (pid ∈ id <$> cartItems)
                then (λ _, {| inventory_stock := stock_after pid cartItems (stock p);
                              last_updated := now w |}) <$>
                       inventory (store w) !! pid
                else inventory (store w) !! pid) ∧
    (∀ pid, products (store w) !! pid = None →
            inventory (store w') !! pid = inventory (store w) !! pid) ∧
    carts (store w') =
      match faults w (UpdateCartByUser (user_id user) []) with
      | Some _ => carts (store w)
      | None => alter (λ _, Some []) (user_id user) (carts (store w))
      end ∧
    ui w' = ui w ++ SetIsProcessing true :: success_events cartItems.
Proof.
  intros Hne Hfo Hfs Hfp Ha.
  assert (points_read user w = loyalty_points <$> profiles (store w) !! user_id user)
    as Hread by (unfold points_read; by rewrite Hfs).
  set (w0 := loop_start user cartItems (points_read user w) w).
  set (w3 := snd (for_of cartItems Checkout.updateStock w0)).
  pose proof (handleSubmit_run user cartItems w Hne Hfo (Hfp _)) as Hrun.
  fold w0 w3 in Hrun.
  pose proof (handleSubmit_run_frame user cartItems w)
    as (_ & Hf3 & _ & Hui & Hord & Hcarts & Hprof & _).
  fold w0 w3 in Hf3, Hui, Hord, Hcarts, Hprof.
  assert (stock_answered w0) as Ha0 by (intros r Hr; by apply Ha).
  destruct (stock_loop_log_any cartItems w0) as [l Hlog]. fold w3 in Hlog.
  exists (loop_finish user cartItems w3), l. split; [exact Hrun |].
  destruct (loop_finish_tables user cartItems w3) as (Hp' & Hi' & Ho').
  split; [| split; [| split; [| split; [| split; [| split; [| split; [| split]]]]]]].
  - unfold loop_finish. cbn [log]. rewrite Hlog. subst w0.
    unfold loop_start, new_points. simpl. rewrite Hread. by rewrite <- !app_assoc.
  - intros Hf. destruct (stock_loop_log cartItems w0 Hf) as (l' & Hlog' & Hreq).
    fold w3 in Hlog'. rewrite Hlog in Hlog'. by apply app_inv_head in Hlog' as ->.
  - by rewrite Ho', Hord.
  - unfold loop_finish. cbn [store].
    replace (profiles (match faults w3 _ with Some _ => _ | None => _ end))
      with (profiles (store w3)) by (by destruct (faults w3 _)).
    rewrite Hprof. subst w0. unfold loop_start, new_points. simpl. by rewrite Hread.
  - intros pid. rewrite Hp'.
    destruct (products (store w) !! pid) as [p|] eqn:Hp.
    + destruct (stock_loop_tables cartItems w0 pid p Ha0 Hp) as [H1 _].
      fold w3 in H1. by rewrite H1.
    + destruct (stock_loop_missing cartItems w0 pid Hp) as [H1 _].
      fold w3 in H1. by rewrite H1.
  - intros pid p Hp. rewrite Hi'.
    destruct (stock_loop_tables cartItems w0 pid p Ha0 Hp) as [_ H2].
    fold w3 in H2. by rewrite H2.
  - intros pid Hp. rewrite Hi'.
    destruct (stock_loop_missing cartItems w0 pid Hp) as [_ H2].
    fold w3 in H2. by rewrite H2.
  - unfold loop_finish. cbn [store]. rewrite Hf3. subst w0. simpl.
    destruct (faults w (UpdateCartByUser (user_id user) [])); simpl; by rewrite Hcarts.
  - unfold loop_finish. cbn [ui]. rewrite Hui. subst w0. simpl.
    by rewrite <- app_assoc.
Qed.

Lemma Math_floor_bounds (x : float) (q : Q) :
  float_value x = Some q →
  (inject_Z (Math_floor x) <= q)%Q ∧ (q < inject_Z (Math_floor x + 1))%Q.
Proof.
  intros Hq. unfold Math_floor. rewrite Hq.
  split; [apply Qfloor_le | apply Qlt_floor].
Qed.



(** A hundred pieces at 4.35 total 434.99999999999994 and earn 434 points. *)
Example loyalty_floor_of_binary64_total :
  getTotalPrice [bolt_item] = 434.99999999999994%float ∧
  Math_floor (getTotalPrice [bolt_item]) = 434.
Proof. split; vm_compute; reflexivity. Qed.

(** C4. A finalization on a store that answers every request issues, in
    this order: the insertion of the order with status [pending]; the read
    and then the update of the profile's points; for each line item in cart
    order the read of the product's stock, followed, when the product row
    exists, by the update of the product row and then of the inventory row;
    last the update that empties the user's cart; and each of these writes
    takes effect: the order is appended, the profile carries the new
    points, every product has its stock run through its lines, the
    inventory row of every product with a line carries that stock, and the
    cart is empty (the points being those of a finite total). Nothing is
    rolled back: an order whose insertion the store accepted is in the
    store when the handler returns, whichever later request fails; when it is the points update that fails, the
    handler stops there, reports the error, and the store differs from the
    initial one by the inserted order only; when it is the emptying of the
    cart that fails, the order, the points and the stock changes stay
    applied beside the cart that was not emptied. *)
Theorem handleSubmit_write_sequence (user : User) (cartItems : list CartItem)
    (w : World) :
  cartItems ≠ [] →
  let order := {| order_user_id := user_id user; order_products := cartItems;
                  total := getTotalPrice cartItems; status := pending |} in
  let points := default 0 (loyalty_points <$> profiles (store w) !! user_id user) +
                Math_floor (getTotalPrice cartItems) in
  let applied (w' : World) :=
    orders (store w') = orders (store w) ++ [order] ∧
    profiles (store w') =
      alter (with_points points) (user_id user) (profiles (store w)) ∧
    (∀ pid, products (store w') !! pid =
              (λ p, with_stock (stock_after pid cartItems (stock p)) p) <$>
                products (store w) !! pid) ∧
    (∀ pid p, products (store w) !! pid = Some p → pid ∈ id <$> cartItems →
              inventory (store w') !! pid =
                (λ _, {| inventory_stock := stock_after pid cartItems (stock p);
                         last_updated := now w |}) <$> inventory (store w) !! pid) in
  (faults w = no_faults →
   Number_isFinite (getTotalPrice cartItems) = true →
   ∃ w' stockRequests,
     Checkout.handleSubmit (Some user) cartItems w = (Normal tt, w') ∧
     log w' = log w ++
       [ InsertOrder order;
         SelectProfilePoints (user_id user);
         UpdateProfilePoints (user_id user) points ] ++
       stockRequests ++
       [ UpdateCartByUser (user_id user) [] ] ∧
     stock_requests (dom (products (store w))) cartItems stockRequests ∧
     applied w' ∧
     carts (store w') = alter (λ _, Some []) (user_id user) (carts (store w))) ∧
  (faults w (InsertOrder order) = None →
   orders (store (snd (Checkout.handleSubmit (Some user) cartItems w))) =
     orders (store w) ++ [order]) ∧
  (∀ e : PgError,
     faults w (InsertOrder order) = None →
     (∀ points, faults w (UpdateProfilePoints (user_id user) points) = Some e) →
     ∃ w',
       Checkout.handleSubmit (Some user) cartItems w = (Normal tt, w') ∧
       store w' = with_orders (λ os, os ++ [order]) (store w) ∧
       (∃ points, log w' = log w ++ [ InsertOrder order;
                                      SelectProfilePoints (user_id user);
                                      UpdateProfilePoints (user_id user) points ]) ∧
       ui w' = ui w ++
         [ SetIsProcessing true;
           ConsoleError "Error processing order:";
           Toast "Error" "Failed to process your order. Please try again." true;
           SetIsProcessing false ]) ∧
  (∀ e : PgError,
     faults w (InsertOrder order) = None →
     faults w (SelectProfilePoints (user_id user)) = None →
     (∀ points, faults w (UpdateProfilePoints (user_id user) points) = None) →
     stock_answered w →
     faults w (UpdateCartByUser (user_id user) []) = Some e →
     Number_isFinite (getTotalPrice cartItems) = true →
     ∃ w',
       Checkout.handleSubmit (Some user) cartItems w = (Normal tt, w') ∧
       applied w' ∧
       carts (store w') = carts (store w)).
Proof.
  intros Hne order points applied. split; [| split; [| split]].
  - intros Hf _.
    destruct (handleSubmit_effects user cartItems w Hne)
      as (w' & l & Hrun & Hlog & Hreq & Hord & Hprof & Hprod & Hinv & _ & Hcarts & _);
      try (by rewrite Hf).
    { by apply stock_answered_no_faults. }
    exists w', l. split; [exact Hrun |]. split; [exact Hlog |].
    split; [by apply Hreq |]. rewrite Hf in Hcarts. split; [| exact Hcarts].
    split; [exact Hord |]. split; [exact Hprof |]. split; [exact Hprod |].
    intros pid p Hp Hin. rewrite (Hinv pid p Hp). by rewrite bool_decide_eq_true_2.
  - intros Hfo. by apply handleSubmit_order_kept.
  - intros e Hfo Hfp. by apply (handleSubmit_profile_failure user cartItems w e).
  - intros e Hfo Hfs Hfp Ha Hfc _.
    destruct (handleSubmit_effects user cartItems w Hne Hfo Hfs Hfp Ha)
      as (w' & l & Hrun & _ & _ & Hord & Hprof & Hprod & Hinv & _ & Hcarts & _).
    exists w'. split; [exact Hrun |]. rewrite Hfc in Hcarts. split; [| exact Hcarts].
    split; [exact Hord |]. split; [exact Hprof |]. split; [exact Hprod |].
    intros pid p Hp Hin. rewrite (Hinv pid p Hp). by rewrite bool_decide_eq_true_2.
Qed.

Lemma handleSubmit_write_sequence_witness :
  (∃ w', Checkout.handleSubmit (Some alice) [apple_item 2]
           (world_of (loyal_store 5 [apple_item 2]) (Some alice) no_faults) =
           (Normal tt, w') ∧
         stock <$> products (store w') !! "A" = Some 3 ∧
         inventory_stock <$> inventory (store w') !! "A" = Some 3 ∧
         loyalty_points <$> profiles (store w') !! "u" = Some 90 ∧
         carts (store w') !! "u" = Some (Some [])) ∧
  (∃ w', Checkout.handleSubmit (Some alice) [apple_item 2]
           (signed_in 5 (fail_when is_profile_update)) = (Normal tt, w') ∧
         orders (store w') = [placed_order alice [apple_item 2]] ∧
         stock <$> products (store w') !! "A" = Some 5) ∧
  (∃ w', Checkout.handleSubmit (Some alice) [apple_item 2]
           (world_of (loyal_store 5 [apple_item 2]) (Some alice)
                     (fail_when is_cart_clear)) = (Normal tt, w') ∧
         stock <$> products (store w') !! "A" = Some 3 ∧
         carts (store w') !! "u" = Some (Some [apple_item 2])).
Proof.
  split; [| split].
  - destruct (handleSubmit_write_sequence alice [apple_item 2]
                (world_of (loyal_store 5 [apple_item 2]) (Some alice) no_faults))
      as [Hsequence _]; [discriminate |].
    destruct Hsequence
      as (w' & l & Hrun & _ & _ & (_ & Hprof & Hprod & Hinv) & Hcarts);
      [reflexivity | reflexivity |].
    exists w'. split; [exact Hrun |].
    rewrite (Hprod "A"), (Hinv "A" (with_stock 5 apple)), Hprof, Hcarts.
    + repeat split; vm_compute; reflexivity.
    + vm_compute. reflexivity.
    + left.
  - destruct (handleSubmit_write_sequence alice [apple_item 2]
                (signed_in 5 (fail_when is_profile_update)))
      as (_ & _ & Hfailure & _); [discriminate |].
    destruct (Hfailure {| code := "08006"; message := "connection failure" |})
      as (w' & Hrun & Hstore & _); [reflexivity | reflexivity |].
    exists w'. split; [exact Hrun |]. rewrite Hstore.
    split; [reflexivity | vm_compute; reflexivity].
  - destruct (handleSubmit_write_sequence alice [apple_item 2]
                (world_of (loyal_store 5 [apple_item 2]) (Some alice)
                          (fail_when is_cart_clear)))
      as (_ & _ & _ & Hclear); [discriminate |].
    destruct (Hclear {| code := "08006"; message := "connection failure" |})
      as (w' & Hrun & (_ & _ & Hprod & _) & Hcarts);
      try reflexivity.
    { intros r Hr. by destruct r. }
    exists w'. split; [exact Hrun |]. rewrite (Hprod "A"), Hcarts.
    split; vm_compute; reflexivity.
Defined.

(** C6 (as amended). A finalization on a store that answers every request
    returns no value to its caller: it completes normally; the created
    order is appended to the store's orders; every product row has its
    stock run through the cart's lines for it, and the inventory row of
    every product with a line carries that stock; what the handler hands to
    the UI is the toast that names the points earned, the floor of the
    finite total, and the navigation to the orders page, and nothing else:
    the order and the new stock values go to the store alone. *)
Theorem handleSubmit_reports (user : User) (cartItems : list CartItem) (w : World) :
  faults w = no_faults →
  cartItems ≠ [] →
  Number_isFinite (getTotalPrice cartItems) = true →
  ∃ w',
    Checkout.handleSubmit (Some user) cartItems w = (Normal tt, w') ∧
    orders (store w') =
      orders (store w) ++
        [ {| order_user_id := user_id user; order_products := cartItems;
             total := getTotalPrice cartItems; status := pending |} ] ∧
    (∀ pid, products (store w') !! pid =
              (λ p, with_stock (stock_after pid cartItems (stock p)) p) <$>
                products (store w) !! pid) ∧
    (∀ pid p, products (store w) !! pid = Some p → pid ∈ id <$> cartItems →
              inventory (store w') !! pid =
                (λ _, {| inventory_stock := stock_after pid cartItems (stock p);
                         last_updated := now w |}) <$> inventory (store w) !! pid) ∧
    ui w' = ui w ++
      [ SetIsProcessing true;
        Toast "Order placed successfully!"
              ("You earned " +:+ pretty (Math_floor (getTotalPrice cartItems)) +:+
               " loyalty points!") false;
        Navigate "/orders";
        SetIsProcessing false ].
Proof.
  intros Hf Hne _.
  destruct (handleSubmit_effects user cartItems w Hne)
    as (w' & l & Hrun & _ & _ & Hord & _ & Hprod & Hinv & _ & _ & Hui);
    try (by rewrite Hf).
  { by apply stock_answered_no_faults. }
  exists w'. split; [exact Hrun |]. split; [exact Hord |]. split; [exact Hprod |].
  split; [| exact Hui].
  intros pid p Hp Hin. rewrite (Hinv pid p Hp). by rewrite bool_decide_eq_true_2.
Qed.

Lemma handleSubmit_reports_witness :
  ∃ w', Checkout.handleSubmit (Some alice) [apple_item 5] (signed_in 3 no_faults) =
          (Normal tt, w') ∧
        stock <$> products (store w') !! "A" = Some 0 ∧
        inventory_stock <$> inventory (store w') !! "A" = Some 0 ∧
        ui w' = [ SetIsProcessing true;
                  Toast "Order placed successfully!" "You earned 50 loyalty points!" false;
                  Navigate "/orders";
                  SetIsProcessing false ].
Proof.
  destruct (handleSubmit_reports alice [apple_item 5] (signed_in 3 no_faults))
    as (w' & Hrun & _ & Hprod & Hinv & Hui).
  - reflexivity.
  - discriminate.
  - reflexivity.
  - exists w'. split; [exact Hrun |].
    rewrite (Hprod "A"), (Hinv "A" (with_stock 3 apple)), Hui.
    + repeat split; vm_compute; reflexivity.
    + vm_compute. reflexivity.
    + left.
Defined.

(** C6, counterexample. What the handler returns and hands to the UI does
    not determine the new stock: finalizing five apples against a stock of
    3 and against a stock of 10 gives the same completion and the same UI
    events, and the stocks 0 and 5. *)
Lemma handleSubmit_result_lacks_stock :
  ¬ ∃ read : Completion unit → list UiEvent → option Z,
      ∀ apple_stock : Z,
        let r := Checkout.handleSubmit (Some alice) [apple_item 5]
                   (world_of (apple_store apple_stock) (Some alice) no_faults) in
        read (fst r) (ui (snd r)) = stock <$> products (store (snd r)) !! "A".
Proof.
  intros [read H].
  pose proof (H 3) as H3. pose proof (H 10) as H10.
  vm_compute in H3, H10. congruence.
Qed.

(** C10. On a store that answers every request, a line item whose product
    row does not exist is passed over by the stock loop, silently: the
    stock of its id is read, no update of a product or inventory row of
    that id is issued, the loop goes on and the run ends with the clearing
    of the cart, and the UI is told of the success and of nothing else.
    After the finalization the product is still absent and the inventory
    entry under its id is as before, every product row has its stock run
    through the cart's lines for it, the created order holds the whole
    cart, that item included, and the points added are the floor of the
    finite total of the whole cart, into which the item's price times its
    quantity is added at the item's place. *)
Theorem handleSubmit_missing_product (user : User) (cartItems : list CartItem)
    (w : World) (item : CartItem) :
  faults w = no_faults →
  item ∈ cartItems →
  products (store w) !! id item = None →
  Number_isFinite (getTotalPrice cartItems) = true →
  ∃ w' requests,
    Checkout.handleSubmit (Some user) cartItems w = (Normal tt, w') ∧
    log w' = log w ++ requests ∧
    SelectProductStock (id item) ∈ requests ∧
    (∀ s stamp, (UpdateProductStock (id item) s ∉ requests) ∧
                (UpdateInventory (id item) s stamp ∉ requests)) ∧
    last requests = Some (UpdateCartByUser (user_id user) []) ∧
    ui w' = ui w ++
      [ SetIsProcessing true;
        Toast "Order placed successfully!"
              ("You earned " +:+ pretty (Math_floor (getTotalPrice cartItems)) +:+
               " loyalty points!") false;
        Navigate "/orders";
        SetIsProcessing false ] ∧
    products (store w') !! id item = None ∧
    inventory (store w') !! id item = inventory (store w) !! id item ∧
    (∀ pid, products (store w') !! pid =
              (λ p, with_stock (stock_after pid cartItems (stock p)) p) <$>
                products (store w) !! pid) ∧
    carts (store w') = alter (λ _, Some []) (user_id user) (carts (store w)) ∧
    orders (store w') =
      orders (store w) ++
        [ {| order_user_id := user_id user; order_products := cartItems;
             total := getTotalPrice cartItems; status := pending |} ] ∧
    loyalty_points <$> profiles (store w') !! user_id user =
      (λ profile, loyalty_points profile + Math_floor (getTotalPrice cartItems)) <$>
        profiles (store w) !! user_id user ∧
    ∃ l1 l2,
      cartItems = l1 ++ item :: l2 ∧
      getTotalPrice cartItems =
        fold_left (λ total item, total + price item * of_Z (quantity item))%float l2
                  (getTotalPrice l1 + price item * of_Z (quantity item))%float.
Proof.
  intros Hf Hin Hnone _.
  destruct (handleSubmit_effects user cartItems w (elem_of_not_nil _ _ Hin))
    as (w' & l & Hrun & Hlog & Hreq & Hord & Hprof & Hprod & _ & Hinv & Hcarts & Hui);
    try (by rewrite Hf).
  { by apply stock_answered_no_faults. }
  specialize (Hreq Hf).
  assert (id item ∉ dom (products (store w))) as Habsent
    by by apply not_elem_of_dom.
  eexists w', _. split; [exact Hrun |]. split; [exact Hlog |].
  split; [| split; [| split; [| split; [exact Hui |]]]].
  - do 3 right. apply elem_of_app. left. by apply (stock_requests_select _ cartItems l item Hreq).
  - intros s stamp.
    destruct (stock_requests_absent _ _ _ _ Hreq Habsent s stamp) as [Hp Hi].
    split; intros Hx;
      repeat (apply elem_of_cons in Hx as [Hx | Hx]; [discriminate |]);
      apply elem_of_app in Hx as [Hx | Hx]; try done;
      apply list_elem_of_singleton in Hx; discriminate.
  - change (?a :: ?b :: ?c :: ?l ++ ?r) with ([a; b; c] ++ l ++ r).
    by rewrite !app_assoc, last_snoc.
  - rewrite Hprod, Hnone. split; [reflexivity |].
    split; [by apply Hinv |]. split; [exact Hprod |].
    rewrite Hf in Hcarts. split; [exact Hcarts |]. split; [exact Hord |].
    split; [rewrite Hprof; apply profile_points_after |].
    destruct (list_elem_of_split _ _ Hin) as (l1 & l2 & ->).
    exists l1, l2. split; [reflexivity |].
    unfold getTotalPrice. by rewrite fold_left_app.
Qed.

Lemma handleSubmit_missing_product_witness :
  ∃ w', Checkout.handleSubmit (Some alice) [apple_item 2; ghost_item]
          (signed_in 5 no_faults) = (Normal tt, w') ∧
        log w' = [ InsertOrder (placed_order alice [apple_item 2; ghost_item]);
                   SelectProfilePoints "u";
                   UpdateProfilePoints "u" 34;
                   SelectProductStock "A";
                   UpdateProductStock "A" 3;
                   UpdateInventory "A" 3 "t1";
                   SelectProductStock "Z";
                   UpdateCartByUser "u" [] ] ∧
        products (store w') !! "Z" = None ∧
        stock <$> products (store w') !! "A" = Some 3 ∧
        order_products <$> last (orders (store w')) = Some [apple_item 2; ghost_item] ∧
        loyalty_points <$> profiles (store w') !! "u" = Some 34.
Proof.
  destruct (handleSubmit_missing_product alice [apple_item 2; ghost_item]
              (signed_in 5 no_faults) ghost_item)
    as (w' & l & Hrun & Hlog & _ & _ & _ & _ & Hnone & _ & Hprod & _ & Hord & Hpoints & _).
  - reflexivity.
  - right. left.
  - reflexivity.
  - reflexivity.
  - exists w'. split; [exact Hrun |].
    split.
    { pose proof Hrun as Hrun'. vm_compute in Hrun'.
      injection Hrun' as <-. vm_compute. reflexivity. }
    split; [exact Hnone |].
    split; [rewrite (Hprod "A"); vm_compute; reflexivity |].
    split; [rewrite Hord; vm_compute; reflexivity |].
    etransitivity; [exact Hpoints |]. vm_compute. reflexivity.
Defined.

(** ** Authentication guard *)

(** Without a session the three page loads redirect to the sign-in page
    and set neither the user nor the items. *)
Lemma page_loads_signed_out (w : World) :
  session w = None →
  Checkout.fetchCartAndUser w = (Normal tt, redirected w) ∧
  Cart.fetchCart w = (Normal tt, redirected w) ∧
  Wishlist.fetchWishlist w = (Normal tt, redirected w).
Proof.
  intros Hs.
  unfold Checkout.fetchCartAndUser, Cart.fetchCart, Wishlist.fetchWishlist.
  run_handler. rewrite Hs. simpl. unfold redirected, add_ui. simpl.
  rewrite <- !app_assoc. simpl. done.
Qed.

Lemma after_load_redirected (load : M unit)
    (handler : option User → list CartItem → M unit) (w : World) :
  load w = (Normal tt, redirected w) →
  after_load load handler w = handler None [] (redirected w).
Proof.
  intros Hload. unfold after_load. rewrite Hload. cbv zeta.
  replace (drop (length (ui w)) (ui (redirected w)))
    with [Navigate "/auth"; SetIsLoading false]
    by (unfold redirected; cbn [ui]; by rewrite drop_app_length).
  reflexivity.
Qed.

(** C8 (as amended). With no authenticated session, the add-to-cart,
    add-to-wishlist and review handlers of the product card and the product
    page, which ask the identity provider on every run, show their sign-in
    prompt and complete without a single request to the record store, which
    is left as it was. The checkout, cart and wishlist pages ask the
    identity provider when they load: the load makes no request, redirects
    to the sign-in page and sets neither the user nor the items, and a
    handler of these pages invoked in the state the load has left makes no
    request either and shows no prompt. These handlers look at the
    component's user state only: whenever that state is null, the checkout
    submission and the wishlist page's add-to-cart return at once, and the
    cart page's quantity update and removal change the component's own item
    list only. *)
Theorem unauthenticated_aborts (w : World) (product : Product)
    (cartItems : list CartItem) (productId itemId : string) (newComment : utf16)
    (newRating newQuantity : Z) :
  (session w = None →
   aborts (ProductCard.handleAddToCart product) w
     [ SetIsLoading true; sign_in_prompt "add items to cart"; SetIsLoading false ] ∧
   aborts (ProductCard.handleAddToWishlist product) w
     [ sign_in_prompt "add items to wishlist" ] ∧
   aborts (ProductDetail.handleAddToCart product) w
     [ sign_in_prompt "add items to cart" ] ∧
   aborts (ProductDetail.handleAddToWishlist product) w
     [ sign_in_prompt "add items to wishlist" ] ∧
   aborts (ProductDetail.handleSubmitReview productId newRating newComment) w
     [ SetIsSubmittingReview true; sign_in_prompt "submit a review";
       SetIsSubmittingReview false ] ∧
   aborts Checkout.fetchCartAndUser w [ Navigate "/auth"; SetIsLoading false ] ∧
   aborts Cart.fetchCart w [ Navigate "/auth"; SetIsLoading false ] ∧
   aborts Wishlist.fetchWishlist w [ Navigate "/auth"; SetIsLoading false ] ∧
   aborts (after_load Checkout.fetchCartAndUser Checkout.handleSubmit) w
     [ Navigate "/auth"; SetIsLoading false ] ∧
   aborts (after_load Wishlist.fetchWishlist (λ user _, Wishlist.addToCart user product)) w
     [ Navigate "/auth"; SetIsLoading false ] ∧
   aborts (after_load Cart.fetchCart
             (λ user items, Cart.updateQuantity user items itemId newQuantity)) w
     ([ Navigate "/auth"; SetIsLoading false ] ++
      if newQuantity <? 1 then [] else [ SetCartItems [] ]) ∧
   aborts (after_load Cart.fetchCart (λ user items, Cart.removeItem user items itemId)) w
     [ Navigate "/auth"; SetIsLoading false; SetCartItems [];
       Toast "Item removed" "Item has been removed from your cart" false ]) ∧
  Checkout.handleSubmit None cartItems w = (Normal tt, w) ∧
  Wishlist.addToCart None product w = (Normal tt, w) ∧
  aborts (Cart.updateQuantity None cartItems itemId newQuantity) w
    (if newQuantity <? 1 then []
     else [ SetCartItems (updateQuantity_items cartItems itemId newQuantity) ]) ∧
  aborts (Cart.removeItem None cartItems itemId) w
    [ SetCartItems (removeItem_items cartItems itemId);
      Toast "Item removed" "Item has been removed from your cart" false ].
Proof.
  split; [intros Hs | split; [reflexivity | split; [reflexivity |]]].
  - destruct (page_loads_signed_out w Hs) as (Hcheckout & Hcart & Hwishlist).
    unfold aborts, sign_in_prompt.
    rewrite !after_load_redirected by done.
    rewrite Hcheckout, Hcart, Hwishlist. unfold redirected.
    repeat split.
    + unfold ProductCard.handleAddToCart. run_handler. simpl. rewrite Hs. simpl.
      eexists. repeat split. simpl. by rewrite <- !app_assoc.
    + unfold ProductCard.handleAddToWishlist. run_handler. rewrite Hs. simpl.
      eexists. repeat split.
    + unfold ProductDetail.handleAddToCart. run_handler. rewrite Hs. simpl.
      eexists. repeat split.
    + unfold ProductDetail.handleAddToWishlist. run_handler. rewrite Hs. simpl.
      eexists. repeat split.
    + unfold ProductDetail.handleSubmitReview. run_handler. simpl. rewrite Hs. simpl.
      eexists. repeat split. simpl. by rewrite <- !app_assoc.
    + eexists. repeat split.
    + eexists. repeat split.
    + eexists. repeat split.
    + eexists. repeat split.
    + eexists. repeat split.
    + unfold Cart.updateQuantity, Cart.updateCartInDatabase. run_handler.
      destruct (newQuantity <? 1); simpl; eexists; repeat split.
      simpl. by rewrite <- !app_assoc.
    + unfold Cart.removeItem, Cart.updateCartInDatabase. run_handler. simpl.
      eexists. repeat split. simpl. by rewrite <- !app_assoc.
  - unfold aborts. split.
    + unfold Cart.updateQuantity, Cart.updateCartInDatabase. run_handler.
      destruct (newQuantity <? 1); simpl; eexists; repeat split.
      simpl. by rewrite app_nil_r.
    + unfold Cart.removeItem, Cart.updateCartInDatabase. run_handler. simpl.
      eexists. repeat split. simpl. by rewrite <- !app_assoc.
Qed.

Lemma unauthenticated_aborts_witness :
  aborts (ProductCard.handleAddToCart apple)
         (world_of (apple_store 5) None no_faults)
         [ SetIsLoading true; sign_in_prompt "add items to cart"; SetIsLoading false ] ∧
  aborts (after_load Checkout.fetchCartAndUser Checkout.handleSubmit)
         (world_of (apple_store 5) None no_faults)
         [ Navigate "/auth"; SetIsLoading false ].
Proof.
  pose proof (unauthenticated_aborts (world_of (apple_store 5) None no_faults)
                apple [apple_item 1] "A" "A" [] 5 1)
    as [Hguarded _].
  destruct (Hguarded eq_refl) as (H1 & _ & _ & _ & _ & _ & _ & _ & H9 & _).
  split; [exact H1 | exact H9].
Defined.

(** C8, counterexample. The checkout page learns of the user when it
    loads and does not ask again: alice loads the page signed in, with one
    apple in her cart; her session ends; the form is submitted. With no
    authenticated user present, the handler issues every request of a
    finalization, the order is created, and no prompt to sign in is
    shown. *)
Lemma handleSubmit_stale_user :
  let w0 := world_of (loyal_store 5 [apple_item 1]) (Some alice) no_faults in
  let w1 := snd (Checkout.fetchCartAndUser w0) in
  let w2 := signed_out w1 in
  let w3 := snd (Checkout.handleSubmit (user_of (ui w1)) (cartItems_of (ui w1)) w2) in
  user_of (ui w1) = Some alice ∧
  cartItems_of (ui w1) = [apple_item 1] ∧
  session w2 = None ∧
  log w3 = log w2 ++
    [ InsertOrder (placed_order alice [apple_item 1]);
      SelectProfilePoints "u";
      UpdateProfilePoints "u" 80;
      SelectProductStock "A";
      UpdateProductStock "A" 4;
      UpdateInventory "A" 4 "t1";
      UpdateCartByUser "u" [] ] ∧
  orders (store w3) = [placed_order alice [apple_item 1]] ∧
  ui w3 = ui w2 ++
    [ SetIsProcessing true;
      Toast "Order placed successfully!" "You earned 10 loyalty points!" false;
      Navigate "/orders";
      SetIsProcessing false ].
Proof. repeat split; vm_compute; reflexivity. Qed.
